(** * The lock module's acquire handler (mod/lock/v2/acquire_handler.go)

    A shallow embedding of [acquireHandler], [createNode],
    [findExistingNode], [ttlKeepAlive] and [watch], together with the Go
    library functions they call, and the properties of the lock
    acquisition protocol proved about them.

    The handler talks to an etcd cluster through [h.client].  The client
    and the HTTP connection are the environment of the handler: they are
    a record of answer functions over an abstract state, and every call
    the handler makes is appended, with its answer, to a log.  The
    properties below hold for every environment. *)

From Stdlib Require Import ZArith String Ascii List Bool Lia.
From Stdlib Require Import DecimalString.
Import ListNotations.

Open Scope string_scope.
Open Scope Z_scope.

(** ** Go library functions used by the handler *)

Module Go.

(** [int] is 64 bits wide; [uint64(x)] reinterprets it modulo 2^64. *)
Definition maxInt : Z := 2 ^ 63 - 1.
Definition minInt : Z := - 2 ^ 63.
Definition uint64 (x : Z) : Z := x mod 2 ^ 64.

(** [int64(x)]: [x] wrapped into 64 bits, two's complement. *)
Definition int64 (x : Z) : Z := (x + 2 ^ 63) mod 2 ^ 64 - 2 ^ 63.

(** [time.Second]: a [time.Duration] is an [int64] count of
    nanoseconds. *)
Definition Second : Z := 1000000000.

(** [time.Duration(n) * time.Second], the product taken in [int64]. *)
Definition seconds (n : Z) : Z := int64 (n * Second).

(** [len(s)] *)
Definition len (s : string) : Z := Z.of_nat (String.length s).

Definition is_digit (c : ascii) : bool :=
  let n := nat_of_ascii c in (48 <=? n)%nat && (n <=? 57)%nat.

Definition digit_val (c : ascii) : Z := Z.of_nat (nat_of_ascii c) - 48.

(** The digits of [s] read in base ten on top of [acc]; [None] when a
    character is not a digit. *)
Fixpoint digits (s : string) (acc : Z) : option Z :=
  match s with
  | EmptyString => Some acc
  | String c s' =>
      if is_digit c then digits s' (10 * acc + digit_val c) else None
  end.

(** [strconv.Atoi]: an optional sign and at least one decimal digit.
    The second component is [true] when [err == nil].  A syntax error
    gives 0; a value out of range gives the nearest bound, also with
    an error. *)
Definition Atoi (s : string) : Z * bool :=
  let '(neg, body) :=
    match s with
    | String "+"%char r => (false, r)
    | String "-"%char r => (true, r)
    | _ => (false, s)
    end in
  match body with
  | EmptyString => (0, false)
  | _ =>
      match digits body 0 with
      | None => (0, false)
      | Some n =>
          if neg then
            if - n <? minInt then (minInt, false) else (- n, true)
          else
            if maxInt <? n then (maxInt, false) else (n, true)
      end
  end.

(** [strconv.Itoa] *)
Definition Itoa (i : Z) : string := NilZero.string_of_int (Z.to_int i).

(** *** Package [path] *)

Definition slash : ascii := "/"%char.

(** The elements of a path between its slashes. *)
Fixpoint split (s : string) (cur : string) : list string :=
  match s with
  | EmptyString => [cur]
  | String c s' =>
      if Ascii.eqb c slash then cur :: split s' ""
      else split s' (cur ++ String c "")
  end.

Fixpoint join (l : list string) : string :=
  match l with
  | [] => ""
  | [x] => x
  | x :: r => x ++ "/" ++ join r
  end.

(** One element of [Clean]: [stack] holds the elements kept so far,
    last first. *)
Definition clean_step (rooted : bool) (stack : list string) (e : string)
  : list string :=
  if String.eqb e "" || String.eqb e "." then stack
  else if String.eqb e ".." then
    match stack with
    | top :: below =>
        if String.eqb top ".." then e :: stack else below
    | [] => if rooted then [] else [e]
    end
  else e :: stack.

Definition rooted (p : string) : bool :=
  match p with
  | String c _ => Ascii.eqb c slash
  | EmptyString => false
  end.

(** [path.Clean] *)
Definition Clean (p : string) : string :=
  let r := rooted p in
  let kept := rev (fold_left (clean_step r) (split p "") []) in
  let out := (if r then "/" else "") ++ join kept in
  if String.eqb out "" then "." else out.

(** [path.Join] of two elements. *)
Definition Join (a b : string) : string :=
  if negb (String.eqb a "") then Clean (a ++ "/" ++ b)
  else if negb (String.eqb b "") then Clean b
  else "".

(** [s] without its trailing slashes; [s] is given reversed. *)
Fixpoint strip_slashes (rev_s : list ascii) : list ascii :=
  match rev_s with
  | c :: r => if Ascii.eqb c slash then strip_slashes r else rev_s
  | [] => []
  end.

(** The characters before the first slash of a reversed path, that is
    the last element of the path, still reversed. *)
Fixpoint until_slash (rev_s : list ascii) : list ascii :=
  match rev_s with
  | c :: r => if Ascii.eqb c slash then [] else c :: until_slash r
  | [] => []
  end.

(** [path.Base] *)
Definition Base (p : string) : string :=
  if String.eqb p "" then "."
  else
    let stripped := strip_slashes (rev (list_ascii_of_string p)) in
    let last := string_of_list_ascii (rev (until_slash stripped)) in
    if String.eqb last "" then "/" else last.

End Go.

(** A string without a slash. *)
Definition no_slash (e : string) : bool :=
  forallb (fun c => negb (Ascii.eqb c Go.slash)) (list_ascii_of_string e).

(** A path element that [path.Clean] keeps as it is: not empty, not "."
    nor "..", and without a slash. *)
Definition plain (e : string) : bool :=
  negb (String.eqb e "") && negb (String.eqb e ".") && negb (String.eqb e "..")
  && no_slash e.

(** ** Data of the etcd client *)

(** [etcd.Node]: the fields the handler reads. *)
#[warnings="-register-all"] Inductive Node : Type := mkNode {
  Key : string;
  Value : string;
  ModifiedIndex : Z;
  Nodes : list Node
}.

(** [etcd.Response] *)
Record Response : Type := mkResponse { RespNode : Node }.

(** Go [error] values.  [watch] compares the error of [Client.Watch] with
    [etcd.ErrWatchStoppedByUser]; every other error is only asked for its
    message. *)
Inductive error : Type :=
| ErrWatchStoppedByUser
| errorString (msg : string).

Definition Error (e : error) : string :=
  match e with
  | ErrWatchStoppedByUser => "Watch stopped by the user via stop channel"
  | errorString m => m
  end.

(** A receive-only [chan bool] handed to [watch] and [createNode]: either
    [nil] or the channel of [http.CloseNotifier]. *)
Inductive recvChan : Type := nilChan | closeNotify.

(** What a [Client.Watch] call comes to. *)
Inductive WatchOutcome : Type :=
| watchChanged (resp : Response)
| watchStopped
| watchFailed (msg : string)
| watchNever.

(** The cases of the [select] in [ttlKeepAlive]. *)
Inductive selectCase : Type := timerFired | stopClosed.

(** What a [select] of [ttlKeepAlive] finds when it proceeds: the timer
    has fired and [stopChan] is still open, [stopChan] is closed and the
    timer has not fired, or both receives can proceed, and then Go takes
    either case: [taken]. *)
Inductive selectReady : Type :=
| timerOnly
| stopOnly
| bothReady (taken : selectCase).

(** The case the [select] takes. *)
Definition case_taken (r : selectReady) : selectCase :=
  match r with
  | timerOnly => timerFired
  | stopOnly => stopClosed
  | bothReady c => c
  end.

(** Whether [stopChan] is closed when the [select] proceeds. *)
Definition stop_is_closed (r : selectReady) : bool :=
  match r with
  | timerOnly => false
  | stopOnly | bothReady _ => true
  end.

(** One entry of the log: a call and its answer.  [ETimer d] is
    [time.After(d)] for a duration of [d] nanoseconds, [ESelect r] a
    [select] of [ttlKeepAlive] that proceeds on [r]. *)
Inductive Event : Type :=
| ESyncCluster
| EAddChild (key value : string) (ttl : Z) (r : Response + error)
| EGet (key : string) (recursive sorted : bool) (r : Response + error)
| EUpdate (key value : string) (ttl : Z) (r : Response + error)
| EDelete (key : string) (recursive : bool) (r : Response + error)
| EWatch (key : string) (waitIndex : Z) (recursive : bool)
         (stop : recvChan) (r : WatchOutcome)
| ESelectClose (received : bool)
| EGoKeepAlive (key value : string) (ttl : Z)
| ETimer (d : Z)
| ESelect (r : selectReady)
| ECloseStopChan.

(** The environment of the handler over a state [sigma] of its own: the
    etcd client and the channel of the HTTP connection.

    [watchAnswer] is the answer of the store to a watch, [None] when it
    never answers.  The channel of the connection belongs to the
    environment, and its content is part of the state: a receive that
    waits during a watch is answered by [closeBeforeAnswer], which tells
    whether the value arrives before the answer of the store, and a
    receive that does not wait by [closeReady]; both leave the state of
    the channel after the receive.  The properties hold for every
    environment; that the channel carries a single value is a property
    of the environment, [one_value] below, assumed where it matters. *)
Record Env (sigma : Type) : Type := mkEnv {
  envSyncCluster : sigma -> sigma;
  envAddChild : string -> string -> Z -> sigma -> (Response + error) * sigma;
  envGet : string -> bool -> bool -> sigma -> (Response + error) * sigma;
  envUpdate : string -> string -> Z -> sigma -> (Response + error) * sigma;
  envDelete : string -> bool -> sigma -> (Response + error) * sigma;
  watchAnswer : string -> Z -> bool -> sigma -> option (Response + string) * sigma;
  closeBeforeAnswer : sigma -> bool * sigma;
  closeReady : sigma -> bool * sigma
}.

Arguments envSyncCluster {sigma}.
Arguments envAddChild {sigma}.
Arguments envGet {sigma}.
Arguments envUpdate {sigma}.
Arguments envDelete {sigma}.
Arguments watchAnswer {sigma}.
Arguments closeBeforeAnswer {sigma}.
Arguments closeReady {sigma}.

(** A run of a computation from a state of the environment: how it ends,
    the state it leaves, and the calls it made, in order. *)
Inductive outcome (A : Type) : Type :=
| Returned (a : A)
| Blocked
| OutOfFuel.

Arguments Returned {A}.
Arguments Blocked {A}.
Arguments OutOfFuel {A}.

Record Run (sigma A : Type) : Type := mkRun {
  result : outcome A;
  final : sigma;
  trace : list Event
}.

Arguments mkRun {sigma A}.
Arguments result {sigma A}.
Arguments final {sigma A}.
Arguments trace {sigma A}.

(** [Blocked]: the computation waits for ever in a call.  [OutOfFuel]:
    the model has no iterations left for a loop that is still running. *)
Definition M (sigma A : Type) : Type := sigma -> Run sigma A.

Definition ret {sigma A : Type} (a : A) : M sigma A :=
  fun w => mkRun (Returned a) w [].

Definition bind {sigma A B : Type} (m : M sigma A) (k : A -> M sigma B)
  : M sigma B :=
  fun w =>
    let r1 := m w in
    match result r1 with
    | Returned a =>
        let r2 := k a (final r1) in
        mkRun (result r2) (final r2) (trace r1 ++ trace r2)
    | Blocked => mkRun Blocked (final r1) (trace r1)
    | OutOfFuel => mkRun OutOfFuel (final r1) (trace r1)
    end.

Definition emit {sigma : Type} (e : Event) : M sigma unit :=
  fun w => mkRun (Returned tt) w [e].

Definition out_of_fuel {sigma A : Type} : M sigma A :=
  fun w => mkRun OutOfFuel w [].

(** A call of the environment that always answers. *)
Definition call {sigma A : Type} (f : sigma -> A * sigma) (ev : A -> Event)
  : M sigma A :=
  fun w => let '(a, w') := f w in mkRun (Returned a) w' [ev a].

Declare Scope go_scope.
Delimit Scope go_scope with go.
Notation "x <- m ;; k" := (bind m (fun x => k))
  (at level 61, m at next level, right associativity) : go_scope.
Notation "m ;;; k" := (bind m (fun _ => k))
  (at level 61, right associativity) : go_scope.
Open Scope go_scope.

(** ** The lock nodes *)

(** The sequence index of an entry: the number its key ends in, as the
    handler reads it with [strconv.Atoi(path.Base(node.Key))]. *)
Definition node_index (n : Node) : Z := fst (Go.Atoi (Go.Base (Key n))).

(** Modelled from the spec: [lockNodes.FindByValue] (the type [lockNodes]
    is declared outside acquire_handler.go).  It returns the entry whose
    associated value equals the given value, or none; the first one in
    the order of the snapshot. *)
Definition FindByValue (nodes : list Node) (value : string) : option Node :=
  find (fun n => String.eqb (Value n) value) nodes.

(** Modelled from the spec: [lockNodes.PrevIndex] (declared outside
    acquire_handler.go).  It is the largest sequence index in the
    snapshot that is strictly less than [index], and 0 when there is no
    such entry; a snapshot that is empty or does not hold [index] itself
    is treated as having no predecessor. *)
Definition PrevIndex (nodes : list Node) (index : Z) : Z :=
  if existsb (fun n => node_index n =? index) nodes then
    fold_left Z.max (filter (fun i => i <? index) (map node_index nodes)) 0
  else 0.

(** ** The handler *)

Definition StatusInternalServerError : Z := 500.

(** What the handler writes to the [http.ResponseWriter]: [http.Error]
    with a message and a status, or [w.Write] of a body. *)
Inductive HttpResponse : Type :=
| httpError (msg : string) (code : Z)
| httpWrite (body : string).

(** The parts of the request the handler reads: [mux.Vars(req)["key"]]
    and the form values; a form value that is absent reads as the empty
    string. *)
Record Request : Type := mkRequest {
  var_key : string;
  form_value : string;
  form_timeout : string;
  form_ttl : string
}.

Section Handler.

Context {sigma : Type}.
Variable h : Env sigma.

(** The package constant [prefix] is declared outside
    acquire_handler.go. *)
Variable prefix : string.

(** *** Calls of [h.client] *)

Definition SyncCluster : M sigma unit :=
  call (fun w => (tt, envSyncCluster h w)) (fun _ => ESyncCluster).

Definition AddChild (key value : string) (ttl : Z)
  : M sigma (Response + error) :=
  call (envAddChild h key value ttl) (EAddChild key value ttl).

Definition Get (key : string) (recursive sorted : bool)
  : M sigma (Response + error) :=
  call (envGet h key recursive sorted) (EGet key recursive sorted).

Definition Update (key value : string) (ttl : Z)
  : M sigma (Response + error) :=
  call (envUpdate h key value ttl) (EUpdate key value ttl).

Definition Delete (key : string) (recursive : bool)
  : M sigma (Response + error) :=
  call (envDelete h key recursive) (EDelete key recursive).

(** *** The goroutine of [watch] *)

(** A receive from [closeChan] while a watch waits for the store.  A
    receive from a nil channel never proceeds; the channel of the
    connection delivers when the connection is closed before the store
    answers, and the value is then taken from the channel. *)
Definition recvClose (closeChan : recvChan) (w : sigma) : bool * sigma :=
  match closeChan with
  | nilChan => (false, w)
  | closeNotify => closeBeforeAnswer h w
  end.

(** The cases of the [select] in the goroutine that [watch] starts. *)
Inductive forwardCase : Type := fromCloseChan | fromStopWatchChan.

(** The goroutine

      select { case <-closeChan: stopWatchChan <- true
               case <-stopWatchChan: }

    while [Client.Watch] waits.  [stopWatchChan] is made by [watch],
    which closes it on its return and not before, and only this
    goroutine sends on it: during the wait the second case cannot
    proceed, and the goroutine takes the first one when its receive
    from [closeChan] proceeds; [None] when it stays in its [select]. *)
Definition forwarder (closeChan : recvChan) (w : sigma)
  : option forwardCase * sigma :=
  let '(received, w1) := recvClose closeChan w in
  (if received then Some fromCloseChan else None, w1).

(** Whether [stopWatchChan] delivers before the store answers: when the
    goroutine, having received from [closeChan], sends on it. *)
Definition stopFires (closeChan : recvChan) (w : sigma) : bool * sigma :=
  let '(c, w1) := forwarder closeChan w in
  (match c with
   | Some fromCloseChan => true
   | Some fromStopWatchChan | None => false
   end, w1).

(** [Client.Watch(key, waitIndex, recursive, nil, stopWatchChan)]: it
    returns [ErrWatchStoppedByUser] when the stop channel delivers
    first, and the answer of the store otherwise; it does not return
    when neither comes. *)
Definition Watch (key : string) (waitIndex : Z) (recursive : bool)
  (closeChan : recvChan) : M sigma (Response + error) :=
  fun w =>
    let ev := EWatch key waitIndex recursive closeChan in
    let '(stopped, w1) := stopFires closeChan w in
    if stopped then
      mkRun (Returned (inr ErrWatchStoppedByUser)) w1 [ev watchStopped]
    else
      let '(a, w2) := watchAnswer h key waitIndex recursive w1 in
      match a with
      | Some (inl resp) => mkRun (Returned (inl resp)) w2 [ev (watchChanged resp)]
      | Some (inr msg) =>
          mkRun (Returned (inr (errorString msg))) w2 [ev (watchFailed msg)]
      | None => mkRun Blocked w2 [ev watchNever]
      end.

(** A receive on [closeChan] that does not wait; a receive from a nil
    channel never proceeds. *)
Definition pollClose (closeChan : recvChan) (w : sigma) : bool * sigma :=
  match closeChan with
  | nilChan => (false, w)
  | closeNotify => closeReady h w
  end.

(** [select { case <-closeChan: ...; default: }] *)
Definition selectClose (closeChan : recvChan) : M sigma bool :=
  call (pollClose closeChan) ESelectClose.

(** *** [watch] *)

(** One unit of [fuel] is one iteration of the [for] loop. *)
Fixpoint watch (fuel : nat) (keypath : string) (index : Z)
  (closeChan : recvChan) : M sigma (option error) :=
  match fuel with
  | O => out_of_fuel
  | S fuel' =>
      r <- Get keypath true true ;;
      match r with
      | inr err =>
          ret (Some (errorString ("lock watch lookup error: " ++ Error err)))
      | inl resp =>
          let waitIndex := ModifiedIndex (RespNode resp) in
          let nodes := Nodes (RespNode resp) in
          let prevIndex := PrevIndex nodes index in
          if prevIndex =? 0 then ret None
          else
            r <- Watch (Go.Join keypath (Go.Itoa prevIndex)) waitIndex false
                       closeChan ;;
            match r with
            | inr ErrWatchStoppedByUser =>
                ret (Some (errorString "lock watch closed"))
            | inr err =>
                ret (Some (errorString ("lock watch error:" ++ Error err)))
            | inl _ => watch fuel' keypath index closeChan
            end
      end
  end.

(** *** [ttlKeepAlive] *)

(** It runs in a goroutine of its own; [sched] gives what each [select]
    finds, in order.  Every iteration evaluates
    [time.After(time.Duration(ttl / 2) * time.Second)] anew, and then
    takes a case; Go's [/] on [int] truncates towards zero. *)
Fixpoint ttlKeepAlive (sched : list selectReady) (k value : string) (ttl : Z)
  : M sigma unit :=
  match sched with
  | [] => out_of_fuel
  | r :: sched' =>
      emit (ETimer (Go.seconds (Z.quot ttl 2))) ;;;
      emit (ESelect r) ;;;
      match case_taken r with
      | timerFired =>
          Update k value (Go.uint64 ttl) ;;;
          ttlKeepAlive sched' k value ttl
      | stopClosed => ret tt
      end
  end.

(** *** [findExistingNode] *)

Definition findExistingNode (keypath value : string) : M sigma Z :=
  if 0 <? Go.len value then
    r <- Get keypath true true ;;
    match r with
    | inl resp =>
        match FindByValue (Nodes (RespNode resp)) value with
        | Some node => ret (node_index node)
        | None => ret 0
        end
    | inr _ => ret 0
    end
  else ret 0.

(** *** [createNode] *)

(** The value stored with the entry: ["-"] when the given one is
    blank. *)
Definition entryValue (value : string) : string :=
  if Go.len value =? 0 then "-" else value.

(** The log of a run holds the calls of the goroutine of the handler.
    [go h.ttlKeepAlive(indexpath, value, ttl, stopChan)] is logged as
    [EGoKeepAlive] with the arguments of the new goroutine, whose own
    calls are those of a run of [ttlKeepAlive]. *)
Definition createNode (fuel : nat) (keypath value : string) (ttl : Z)
  (closeChan : recvChan) : M sigma (Z * option error) :=
  let value := entryValue value in
  r <- AddChild keypath value (Go.uint64 ttl) ;;
  match r with
  | inr err =>
      ret (0, Some (errorString ("acquire lock index error: " ++ Error err)))
  | inl resp =>
      let indexpath := Key (RespNode resp) in
      let index := fst (Go.Atoi (Go.Base indexpath)) in
      emit (EGoKeepAlive indexpath value ttl) ;;;
      err <- watch fuel keypath index closeChan ;;
      err <- match err with
             | Some e =>
                 interrupted <- selectClose closeChan ;;
                 if interrupted
                 then ret (Some (errorString "acquire lock error: user interrupted"))
                 else ret (Some e)
             | None => ret None
             end ;;
      match err with
      | None => Update indexpath value (Go.uint64 ttl) ;;; ret (index, err)
      | Some _ => Delete indexpath false ;;; ret (index, err)
      end
  end.

(** *** [acquireHandler] *)

(** The [timeout] form value as the handler parses it. *)
Definition parseTimeout (s : string) : Z * bool :=
  if String.eqb s "" then (-1, true) else Go.Atoi s.

Definition acquireHandler (fuel : nat) (req : Request) : M sigma HttpResponse :=
  SyncCluster ;;;
  let keypath := Go.Join prefix (var_key req) in
  let value := form_value req in
  let '(timeout, timeout_ok) := parseTimeout (form_timeout req) in
  if negb timeout_ok then
    ret (httpError ("invalid timeout: " ++ form_timeout req)
                   StatusInternalServerError)
  else
    let timeout := timeout + 1 in
    let '(ttl, ttl_ok) := Go.Atoi (form_ttl req) in
    if negb ttl_ok then
      ret (httpError ("invalid ttl: " ++ form_ttl req)
                     StatusInternalServerError)
    else
      index <- findExistingNode keypath value ;;
      res <- (if 0 <? index then
                err <- watch fuel keypath index nilChan ;;
                ret (index, err)
              else createNode fuel keypath value ttl closeNotify) ;;
      emit ECloseStopChan ;;;
      match snd res with
      | Some err => ret (httpError (Error err) StatusInternalServerError)
      | None => ret (httpWrite (Go.Itoa (fst res)))
      end.

End Handler.

(** ** The Watch Loop of the specification *)

(** Section 4.3 describes the Watch Loop by its steps.  [WatchLoop] is
    that description as a relation between the calls of one invocation
    and the way it ends:
    fetch the sibling entries afresh with the modified index of the
    parent (step 1), compute the preceding index of the caller's own
    index (step 2), succeed when it is 0 (step 3), otherwise watch the
    predecessor's path from that modified index with the stop signal
    passed through (step 4), start again from step 1 when the watch
    completes (step 5), and end in failure when the watch was stopped
    (step 6) or a lookup or a watch fails (step 7). *)
Inductive WatchLoop (keypath : string) (index : Z) (stop : recvChan)
  : list Event -> outcome (option error) -> Prop :=
| WL_acquired : forall resp,
    PrevIndex (Nodes (RespNode resp)) index = 0 ->
    WatchLoop keypath index stop
      [EGet keypath true true (inl resp)]
      (Returned None)
| WL_again : forall resp changed tr out,
    PrevIndex (Nodes (RespNode resp)) index <> 0 ->
    WatchLoop keypath index stop tr out ->
    WatchLoop keypath index stop
      (EGet keypath true true (inl resp)
       :: EWatch (Go.Join keypath (Go.Itoa (PrevIndex (Nodes (RespNode resp)) index)))
                 (ModifiedIndex (RespNode resp)) false stop (watchChanged changed)
       :: tr)
      out
| WL_stopped : forall resp,
    PrevIndex (Nodes (RespNode resp)) index <> 0 ->
    WatchLoop keypath index stop
      [EGet keypath true true (inl resp);
       EWatch (Go.Join keypath (Go.Itoa (PrevIndex (Nodes (RespNode resp)) index)))
              (ModifiedIndex (RespNode resp)) false stop watchStopped]
      (Returned (Some (errorString "lock watch closed")))
| WL_lookup_failed : forall err,
    WatchLoop keypath index stop
      [EGet keypath true true (inr err)]
      (Returned (Some (errorString ("lock watch lookup error: " ++ Error err))))
| WL_watch_failed : forall resp msg,
    PrevIndex (Nodes (RespNode resp)) index <> 0 ->
    WatchLoop keypath index stop
      [EGet keypath true true (inl resp);
       EWatch (Go.Join keypath (Go.Itoa (PrevIndex (Nodes (RespNode resp)) index)))
              (ModifiedIndex (RespNode resp)) false stop (watchFailed msg)]
      (Returned (Some (errorString ("lock watch error:" ++ msg))))
| WL_waiting : forall resp,
    PrevIndex (Nodes (RespNode resp)) index <> 0 ->
    WatchLoop keypath index stop
      [EGet keypath true true (inl resp);
       EWatch (Go.Join keypath (Go.Itoa (PrevIndex (Nodes (RespNode resp)) index)))
              (ModifiedIndex (RespNode resp)) false stop watchNever]
      Blocked
| WL_running :
    WatchLoop keypath index stop [] OutOfFuel.

(** The Watch Loop followed for [n] iterations at most.  Every
    iteration starts from a fresh snapshot; a loop that has not ended
    within [n] iterations has completed [n] watches, and only such a loop
    is still running. *)
Inductive WatchIterations (keypath : string) (index : Z) (stop : recvChan)
  : nat -> list Event -> outcome (option error) -> Prop :=
| WI_acquired : forall n resp,
    PrevIndex (Nodes (RespNode resp)) index = 0 ->
    WatchIterations keypath index stop (S n)
      [EGet keypath true true (inl resp)]
      (Returned None)
| WI_again : forall n resp changed tr out,
    PrevIndex (Nodes (RespNode resp)) index <> 0 ->
    WatchIterations keypath index stop n tr out ->
    WatchIterations keypath index stop (S n)
      (EGet keypath true true (inl resp)
       :: EWatch (Go.Join keypath (Go.Itoa (PrevIndex (Nodes (RespNode resp)) index)))
                 (ModifiedIndex (RespNode resp)) false stop (watchChanged changed)
       :: tr)
      out
| WI_stopped : forall n resp,
    PrevIndex (Nodes (RespNode resp)) index <> 0 ->
    WatchIterations keypath index stop (S n)
      [EGet keypath true true (inl resp);
       EWatch (Go.Join keypath (Go.Itoa (PrevIndex (Nodes (RespNode resp)) index)))
              (ModifiedIndex (RespNode resp)) false stop watchStopped]
      (Returned (Some (errorString "lock watch closed")))
| WI_lookup_failed : forall n err,
    WatchIterations keypath index stop (S n)
      [EGet keypath true true (inr err)]
      (Returned (Some (errorString ("lock watch lookup error: " ++ Error err))))
| WI_watch_failed : forall n resp msg,
    PrevIndex (Nodes (RespNode resp)) index <> 0 ->
    WatchIterations keypath index stop (S n)
      [EGet keypath true true (inl resp);
       EWatch (Go.Join keypath (Go.Itoa (PrevIndex (Nodes (RespNode resp)) index)))
              (ModifiedIndex (RespNode resp)) false stop (watchFailed msg)]
      (Returned (Some (errorString ("lock watch error:" ++ msg))))
| WI_waiting : forall n resp,
    PrevIndex (Nodes (RespNode resp)) index <> 0 ->
    WatchIterations keypath index stop (S n)
      [EGet keypath true true (inl resp);
       EWatch (Go.Join keypath (Go.Itoa (PrevIndex (Nodes (RespNode resp)) index)))
              (ModifiedIndex (RespNode resp)) false stop watchNever]
      Blocked
| WI_running :
    WatchIterations keypath index stop O [] OutOfFuel.

(** The number of watches among [tr] that completed with a change. *)
Definition is_changed (e : Event) : bool :=
  match e with EWatch _ _ _ _ (watchChanged _) => true | _ => false end.

(** The failure a call of the Watch Loop stands for, with the message the
    loop gives it: a lookup that failed, a watch that was stopped, a
    watch that failed. *)
Definition watch_failure (e : Event) : option string :=
  match e with
  | EGet _ _ _ (inr err) => Some ("lock watch lookup error: " ++ Error err)
  | EWatch _ _ _ _ watchStopped => Some "lock watch closed"
  | EWatch _ _ _ _ (watchFailed msg) => Some ("lock watch error:" ++ msg)
  | _ => None
  end.

(** ** Classes of calls *)

(** The calls of the Watch Loop: lookups, and watches with the stop
    channel the loop was given. *)
Definition loop_call (stop : recvChan) (e : Event) : Prop :=
  match e with
  | EGet _ _ _ _ => True
  | EWatch _ _ _ s _ => s = stop
  | _ => False
  end.

(** The operations on the store: create, get, update, delete, watch. *)
Definition store_call (e : Event) : bool :=
  match e with
  | EAddChild _ _ _ _ | EGet _ _ _ _ | EUpdate _ _ _ _
  | EDelete _ _ _ | EWatch _ _ _ _ _ => true
  | _ => false
  end.

Definition is_AddChild (e : Event) : bool :=
  match e with EAddChild _ _ _ _ => true | _ => false end.

Definition is_Delete (e : Event) : bool :=
  match e with EDelete _ _ _ => true | _ => false end.



(** ** A store for running the handler

    A small store in memory with scripted faults, to run the handler on
    concrete requests: the entries of one lock, the index the next entry
    gets, the errors the next calls of each kind meet, what the next
    watches come to, and what the connection's channel does. *)

Inductive watchScript : Type :=
| released          (* the watched entry goes away *)
| failing (msg : string)
| silent.           (* the store never answers *)

Record TestStore : Type := mkTestStore {
  entries : list Node;
  nextIndex : Z;
  addFaults : list (option string);
  getFaults : list (option string);
  updateFaults : list (option string);
  watches : list watchScript;
  closeDuring : list bool;
  closePolls : list bool
}.

Definition pop {A : Type} (d : A) (l : list A) : A * list A :=
  match l with
  | [] => (d, [])
  | x :: r => (x, r)
  end.

Definition has_key (k : string) (n : Node) : bool := String.eqb (Key n) k.

Definition tsAddChild (key value : string) (ttl : Z) (s : TestStore)
  : (Response + error) * TestStore :=
  let '(f, fs) := pop None (addFaults s) in
  match f with
  | Some msg =>
      (inr (errorString msg),
       mkTestStore (entries s) (nextIndex s) fs (getFaults s) (updateFaults s)
                   (watches s) (closeDuring s) (closePolls s))
  | None =>
      let n := mkNode (key ++ "/" ++ Go.Itoa (nextIndex s)) value (nextIndex s) [] in
      (inl (mkResponse n),
       mkTestStore (entries s ++ [n]) (nextIndex s + 1) fs (getFaults s)
                   (updateFaults s) (watches s) (closeDuring s) (closePolls s))
  end.

Definition tsGet (key : string) (recursive sorted : bool) (s : TestStore)
  : (Response + error) * TestStore :=
  let '(f, fs) := pop None (getFaults s) in
  let s' := mkTestStore (entries s) (nextIndex s) (addFaults s) fs
                        (updateFaults s) (watches s) (closeDuring s)
                        (closePolls s) in
  match f with
  | Some msg => (inr (errorString msg), s')
  | None => (inl (mkResponse (mkNode key "" (nextIndex s - 1) (entries s))), s')
  end.

Definition tsUpdate (key value : string) (ttl : Z) (s : TestStore)
  : (Response + error) * TestStore :=
  let '(f, fs) := pop None (updateFaults s) in
  let rest := mkTestStore (entries s) (nextIndex s) (addFaults s) (getFaults s)
                          fs (watches s) (closeDuring s) (closePolls s) in
  match f with
  | Some msg => (inr (errorString msg), rest)
  | None =>
      match find (has_key key) (entries s) with
      | None => (inr (errorString "Key not found"), rest)
      | Some n =>
          let n' := mkNode key value (nextIndex s) [] in
          (inl (mkResponse n'),
           mkTestStore
             (map (fun m => if has_key key m then n' else m) (entries s))
             (nextIndex s + 1) (addFaults s) (getFaults s) fs (watches s)
             (closeDuring s) (closePolls s))
      end
  end.

Definition without (key : string) (l : list Node) : list Node :=
  filter (fun n => negb (has_key key n)) l.

Definition tsDelete (key : string) (recursive : bool) (s : TestStore)
  : (Response + error) * TestStore :=
  match find (has_key key) (entries s) with
  | None => (inr (errorString "Key not found"), s)
  | Some n =>
      (inl (mkResponse n),
       mkTestStore (without key (entries s)) (nextIndex s + 1) (addFaults s)
                   (getFaults s) (updateFaults s) (watches s) (closeDuring s)
                   (closePolls s))
  end.

Definition tsWatchAnswer (key : string) (waitIndex : Z) (recursive : bool)
  (s : TestStore) : option (Response + string) * TestStore :=
  let '(a, ws) := pop silent (watches s) in
  match a with
  | released =>
      (Some (inl (mkResponse (mkNode key "" (nextIndex s) []))),
       mkTestStore (without key (entries s)) (nextIndex s + 1) (addFaults s)
                   (getFaults s) (updateFaults s) ws (closeDuring s)
                   (closePolls s))
  | failing msg =>
      (Some (inr msg),
       mkTestStore (entries s) (nextIndex s) (addFaults s) (getFaults s)
                   (updateFaults s) ws (closeDuring s) (closePolls s))
  | silent =>
      (None,
       mkTestStore (entries s) (nextIndex s) (addFaults s) (getFaults s)
                   (updateFaults s) ws (closeDuring s) (closePolls s))
  end.

(** The channel of the connection carries one value: once a receive
    has taken it, no later receive proceeds. *)
Definition tsCloseBeforeAnswer (s : TestStore) : bool * TestStore :=
  let '(b, bs) := pop false (closeDuring s) in
  (b, mkTestStore (entries s) (nextIndex s) (addFaults s) (getFaults s)
                  (updateFaults s) (watches s)
                  (if b then [] else bs) (if b then [] else closePolls s)).

Definition tsCloseReady (s : TestStore) : bool * TestStore :=
  let '(b, bs) := pop false (closePolls s) in
  (b, mkTestStore (entries s) (nextIndex s) (addFaults s) (getFaults s)
                  (updateFaults s) (watches s)
                  (if b then [] else closeDuring s) (if b then [] else bs)).

Definition testEnv : Env TestStore :=
  mkEnv TestStore (fun s => s) tsAddChild tsGet tsUpdate tsDelete
        tsWatchAnswer tsCloseBeforeAnswer tsCloseReady.

(** [http.CloseNotifier]: the channel receives at most a single value.
    The goroutine of [watch] takes it when it stops a watch, so that a
    receive right after the stopped watch cannot proceed. *)
Definition one_value {sigma : Type} (h : Env sigma) : Prop :=
  forall w w1, closeBeforeAnswer h w = (true, w1) -> fst (closeReady h w1) = false.

Definition lockPrefix : string := "/_etcd/mod/lock".

(** A store holding [es] with no faults: every watch meets [ws], the
    connection's channel does [cd] during watches and [cp] when polled. *)
Definition store (es : list Node) (next : Z) (ws : list watchScript)
  (cd cp : list bool) : TestStore :=
  mkTestStore es next [] [] [] ws cd cp.

Definition entry (index : Z) (value : string) : Node :=
  mkNode ("/_etcd/mod/lock/db/" ++ Go.Itoa index) value index [].

Definition acquire (s : TestStore) (value ttl : string) : Run TestStore HttpResponse :=
  acquireHandler testEnv lockPrefix 8 (mkRequest "db" value "" ttl) s.

(** ** The end of the handler *)

(** The run of the handler once the acquisition has come to [o] in the
    state [w] after the calls [tr]: it closes [stopChan] and writes the
    response. *)
Definition respond {sigma : Type} (o : outcome (Z * option error)) (w : sigma)
  (tr : list Event) : Run sigma HttpResponse :=
  match o with
  | Returned (index, None) =>
      mkRun (Returned (httpWrite (Go.Itoa index))) w (tr ++ [ECloseStopChan])
  | Returned (_, Some err) =>
      mkRun (Returned (httpError (Error err) StatusInternalServerError)) w
            (tr ++ [ECloseStopChan])
  | Blocked => mkRun Blocked w tr
  | OutOfFuel => mkRun OutOfFuel w tr
  end.

(** The selects of [sched] that take the timer before the first one that
    takes the stop channel. *)
Fixpoint before_stop (sched : list selectReady) : list selectReady :=
  match sched with
  | r :: rest =>
      match case_taken r with
      | timerFired => r :: before_stop rest
      | stopClosed => []
      end
  | [] => []
  end.

(** ** The shapes of a run

    What the calls and the outcome of [createNode] and of the handler
    can be, read off their code path by path. *)

Definition is_stopped (e : Event) : bool :=
  match e with EWatch _ _ _ _ watchStopped => true | _ => false end.

Definition is_close (e : Event) : bool :=
  match e with ECloseStopChan => true | _ => false end.

Definition is_Update (e : Event) : bool :=
  match e with EUpdate _ _ _ _ => true | _ => false end.

(** The number of calls of a class among [tr]. *)
Definition count (p : Event -> bool) (tr : list Event) : nat :=
  List.length (filter p tr).

(** [close(stopChan)], which the handler reaches when the acquisition
    has returned. *)
Definition closing {A : Type} (o : outcome A) : list Event :=
  match o with
  | Returned _ => [ECloseStopChan]
  | _ => []
  end.

(** The response written for what the acquisition came to. *)
Definition answer (o : outcome (Z * option error)) : outcome HttpResponse :=
  match o with
  | Returned (index, None) => Returned (httpWrite (Go.Itoa index))
  | Returned (_, Some err) =>
      Returned (httpError (Error err) StatusInternalServerError)
  | Blocked => Blocked
  | OutOfFuel => OutOfFuel
  end.

(** The result of [watch] paired with the index it was run for. *)
Definition with_index (index : Z) (o : outcome (option error))
  : outcome (Z * option error) :=
  match o with
  | Returned err => Returned (index, err)
  | Blocked => Blocked
  | OutOfFuel => OutOfFuel
  end.

(** [key] is the key of an entry that a successful [AddChild] on
    [keypath] among [tr] returned. *)
Definition created_by (keypath : string) (tr : list Event) (key : string) : Prop :=
  exists value ttl resp,
    In (EAddChild keypath value ttl (inl resp)) tr /\ key = Key (RespNode resp).

(** The runs of [createNode]. *)
Inductive CreateRun (keypath value : string) (ttl : Z) (stop : recvChan)
  : list Event -> outcome (Z * option error) -> Prop :=
| CR_add_failed : forall err,
    CreateRun keypath value ttl stop
      [EAddChild keypath (entryValue value) (Go.uint64 ttl) (inr err)]
      (Returned (0, Some (errorString
                            ("acquire lock index error: " ++ Error err))))
| CR_acquired : forall resp trw u,
    WatchLoop keypath (node_index (RespNode resp)) stop trw (Returned None) ->
    CreateRun keypath value ttl stop
      (EAddChild keypath (entryValue value) (Go.uint64 ttl) (inl resp)
       :: EGoKeepAlive (Key (RespNode resp)) (entryValue value) ttl
       :: trw ++ [EUpdate (Key (RespNode resp)) (entryValue value)
                          (Go.uint64 ttl) u])%list
      (Returned (node_index (RespNode resp), None))
| CR_failed : forall resp trw e b d,
    WatchLoop keypath (node_index (RespNode resp)) stop trw (Returned (Some e)) ->
    (stop = nilChan -> b = false) ->
    CreateRun keypath value ttl stop
      (EAddChild keypath (entryValue value) (Go.uint64 ttl) (inl resp)
       :: EGoKeepAlive (Key (RespNode resp)) (entryValue value) ttl
       :: trw ++ [ESelectClose b; EDelete (Key (RespNode resp)) false d])%list
      (Returned (node_index (RespNode resp),
                 Some (if b
                       then errorString "acquire lock error: user interrupted"
                       else e)))
| CR_unfinished : forall resp trw out,
    WatchLoop keypath (node_index (RespNode resp)) stop trw out ->
    out = Blocked \/ out = OutOfFuel ->
    CreateRun keypath value ttl stop
      (EAddChild keypath (entryValue value) (Go.uint64 ttl) (inl resp)
       :: EGoKeepAlive (Key (RespNode resp)) (entryValue value) ttl
       :: trw)
      (with_index 0 out).

(** The runs of [findExistingNode] that end in 0 or less: the value is
    blank, the lookup fails, no entry has the value, or the entry that
    has it has no positive index. *)
Inductive LookupMiss (keypath value : string) : list Event -> Prop :=
| LM_blank :
    value = "" -> LookupMiss keypath value []
| LM_failed : forall err,
    value <> "" ->
    LookupMiss keypath value [EGet keypath true true (inr err)]
| LM_absent : forall resp,
    value <> "" ->
    FindByValue (Nodes (RespNode resp)) value = None ->
    LookupMiss keypath value [EGet keypath true true (inl resp)]
| LM_unnumbered : forall resp node,
    value <> "" ->
    FindByValue (Nodes (RespNode resp)) value = Some node ->
    node_index node <= 0 ->
    LookupMiss keypath value [EGet keypath true true (inl resp)].

(** The runs of [acquireHandler]. *)
Inductive HandlerRun (prefix : string) (req : Request)
  : list Event -> outcome HttpResponse -> Prop :=
| HR_bad_timeout :
    snd (parseTimeout (form_timeout req)) = false ->
    HandlerRun prefix req [ESyncCluster]
      (Returned (httpError ("invalid timeout: " ++ form_timeout req)
                           StatusInternalServerError))
| HR_bad_ttl :
    snd (parseTimeout (form_timeout req)) = true ->
    snd (Go.Atoi (form_ttl req)) = false ->
    HandlerRun prefix req [ESyncCluster]
      (Returned (httpError ("invalid ttl: " ++ form_ttl req)
                           StatusInternalServerError))
| HR_reuse : forall resp node trw outw,
    snd (parseTimeout (form_timeout req)) = true ->
    snd (Go.Atoi (form_ttl req)) = true ->
    form_value req <> "" ->
    FindByValue (Nodes (RespNode resp)) (form_value req) = Some node ->
    0 < node_index node ->
    WatchLoop (Go.Join prefix (var_key req)) (node_index node) nilChan trw outw ->
    Forall (fun e => is_stopped e = false) trw ->
    HandlerRun prefix req
      (ESyncCluster
       :: EGet (Go.Join prefix (var_key req)) true true (inl resp)
       :: trw ++ closing outw)%list
      (answer (with_index (node_index node) outw))
| HR_create : forall ttl tr1 trc outc,
    snd (parseTimeout (form_timeout req)) = true ->
    Go.Atoi (form_ttl req) = (ttl, true) ->
    LookupMiss (Go.Join prefix (var_key req)) (form_value req) tr1 ->
    CreateRun (Go.Join prefix (var_key req)) (form_value req) ttl closeNotify
              trc outc ->
    HandlerRun prefix req
      (ESyncCluster :: tr1 ++ trc ++ closing outc)%list
      (answer outc).

(** ** Statements of the specification, for one call

    [run] is the call of the handler on the request [req] from the state
    [w] of the environment. *)

Section Statements.

Context {sigma : Type}.
Variable h : Env sigma.
Variable prefix : string.
Variable fuel : nat.
Variable req : Request.
Variable w : sigma.

Let keypath := Go.Join prefix (var_key req).
Let run := acquireHandler h prefix fuel req w.

(** A string that parses as a non-negative integer. *)
Definition nonneg_int (s : string) : Prop :=
  exists n, Go.Atoi s = (n, true) /\ 0 <= n.

(** Validation of the ttl: a ttl that does not parse as a non-negative
    integer is rejected with an error before any call of the store. *)
Definition ttl_statement : Prop :=
  ~ nonneg_int (form_ttl req) ->
  (exists msg, result run = Returned (httpError msg StatusInternalServerError))
  /\ Forall (fun e => store_call e = false) (trace run).


End Statements.

(** ** Statements of the specification, for the loops *)

(** [index] is the index of an entry of the snapshot. *)
Definition present (nodes : list Node) (index : Z) : Prop :=
  In index (map node_index nodes).

(** [index] is the minimum among the entries of the snapshot. *)
Definition minimum_of (nodes : list Node) (index : Z) : Prop :=
  present nodes index /\ forall n, In n nodes -> index <= node_index n.

(** No entry of the snapshot precedes [index]: the snapshot does not
    hold [index], or no entry has a smaller positive index. *)
Definition no_predecessor (nodes : list Node) (index : Z) : Prop :=
  ~ present nodes index
  \/ forall n, In n nodes -> 0 < node_index n -> index <= node_index n.

(** The invariant of the lock, for one run of [watch]: the run ends in
    success exactly when the index it was run for is the minimum among
    the entries of the snapshot it fetched last. *)
Definition lock_statement {sigma : Type} (h : Env sigma) (fuel : nat)
  (keypath : string) (index : Z) (stop : recvChan) (w : sigma) : Prop :=
  let run := watch h fuel keypath index stop w in
  result run = Returned None <->
  exists tr resp,
    trace run = (tr ++ [EGet keypath true true (inl resp)])%list
    /\ minimum_of (Nodes (RespNode resp)) index.

(** The select of [sched] that takes the stop channel first. *)
Fixpoint stop_select (sched : list selectReady) : option selectReady :=
  match sched with
  | r :: rest =>
      match case_taken r with
      | timerFired => stop_select rest
      | stopClosed => Some r
      end
  | [] => None
  end.

(** The Lease Keeper, for one run of [ttlKeepAlive]: every timer lasts
    [ttl / 2] seconds and one second at least, and no renewal follows a
    [select] that found [stopChan] closed. *)
Definition keepalive_statement {sigma : Type} (h : Env sigma)
  (sched : list selectReady) (k value : string) (ttl : Z) (w : sigma) : Prop :=
  let run := ttlKeepAlive h sched k value ttl w in
  Forall (fun e => match e with
                   | ETimer d => d = Z.quot ttl 2 * Go.Second /\ Go.Second <= d
                   | _ => True
                   end) (trace run)
  /\ forall pre r post,
       trace run = (pre ++ ESelect r :: post)%list ->
       stop_is_closed r = true ->
       Forall (fun e => is_Update e = false) post.

(** * Properties *)

Open Scope list_scope.

(** ** The Go library functions on examples *)

Example Atoi_12 : Go.Atoi "12" = (12, true). Proof. reflexivity. Qed.
Example Atoi_neg : Go.Atoi "-7" = (-7, true). Proof. reflexivity. Qed.
Example Atoi_plus : Go.Atoi "+7" = (7, true). Proof. reflexivity. Qed.
Example Atoi_empty : Go.Atoi "" = (0, false). Proof. reflexivity. Qed.
Example Atoi_sign_only : Go.Atoi "-" = (0, false). Proof. reflexivity. Qed.
Example Atoi_word : Go.Atoi "1x" = (0, false). Proof. reflexivity. Qed.
Example Atoi_range :
  Go.Atoi "9223372036854775808" = (9223372036854775807, false).
Proof. reflexivity. Qed.
Example Atoi_min :
  Go.Atoi "-9223372036854775808" = (-9223372036854775808, true).
Proof. reflexivity. Qed.
Example Itoa_12 : Go.Itoa 12 = "12". Proof. reflexivity. Qed.
Example Itoa_0 : Go.Itoa 0 = "0". Proof. reflexivity. Qed.
Example Base_key : Go.Base "/_etcd/mod/lock/db/12" = "12".
Proof. reflexivity. Qed.
Example Base_trailing : Go.Base "/a/b//" = "b". Proof. reflexivity. Qed.
Example Base_root : Go.Base "///" = "/". Proof. reflexivity. Qed.
Example Base_empty : Go.Base "" = ".". Proof. reflexivity. Qed.
Example Join_key : Go.Join "/_etcd/mod/lock" "db" = "/_etcd/mod/lock/db".
Proof. reflexivity. Qed.
Example Join_clean : Go.Join "/a//b/./c" "../d/" = "/a/b/d".
Proof. reflexivity. Qed.
Example Join_dotdot : Go.Join "a" "../../b" = "../b". Proof. reflexivity. Qed.
Example Join_root : Go.Join "/" ".." = "/". Proof. reflexivity. Qed.

(** ** The Watch Loop of the specification *)

Lemma snoc_cons_inv : forall (A : Type) (a e : A) (l l' : list A),
  a :: l = l' ++ [e] ->
  (l = [] /\ l' = [] /\ a = e) \/ (exists l'', l' = a :: l'' /\ l = l'' ++ [e]).
Proof.
  intros A a e l l' H. destruct l' as [|b l']; cbn in H.
  - left. now inversion H.
  - right. inversion H; subst. now exists l'.
Qed.

(** The loop ends in success exactly when the snapshot it fetched last
    gives the caller's index no predecessor. *)
Lemma WatchLoop_success : forall keypath index stop tr out,
  WatchLoop keypath index stop tr out ->
  out = Returned None <->
  exists tr' resp,
    tr = tr' ++ [EGet keypath true true (inl resp)]
    /\ PrevIndex (Nodes (RespNode resp)) index = 0.
Proof.
  intros keypath index stop tr out H.
  induction H as [resp E|resp changed tr out E H IH|resp E|err|resp msg E|resp E|].
  - split; [intros _|reflexivity]. now exists [], resp.
  - split.
    + intros Hout. apply IH in Hout. destruct Hout as (tr' & resp' & -> & E').
      eexists (_ :: _ :: tr'), resp'.
      split; [reflexivity|exact E'].
    + intros (tr' & resp' & Htr & E'). apply IH.
      apply snoc_cons_inv in Htr as [(Hnil & _)|(tr1 & -> & Htr)]; [discriminate|].
      apply snoc_cons_inv in Htr as [(_ & _ & Hbad)|(tr2 & -> & Htr)]; [discriminate|].
      now exists tr2, resp'.
  - split; [discriminate|]. intros (tr' & resp' & Htr & _).
    apply snoc_cons_inv in Htr as [(Hnil & _)|(tr1 & -> & Htr)]; [discriminate|].
    apply snoc_cons_inv in Htr as [(_ & _ & Hbad)|(tr2 & _ & Htr)]; [discriminate|].
    now destruct tr2.
  - split; [discriminate|]. intros (tr' & resp' & Htr & _).
    apply snoc_cons_inv in Htr as [(_ & _ & Hbad)|(tr1 & _ & Htr)]; [discriminate|].
    now destruct tr1.
  - split; [discriminate|]. intros (tr' & resp' & Htr & _).
    apply snoc_cons_inv in Htr as [(Hnil & _)|(tr1 & -> & Htr)]; [discriminate|].
    apply snoc_cons_inv in Htr as [(_ & _ & Hbad)|(tr2 & _ & Htr)]; [discriminate|].
    now destruct tr2.
  - split; [discriminate|]. intros (tr' & resp' & Htr & _).
    apply snoc_cons_inv in Htr as [(Hnil & _)|(tr1 & -> & Htr)]; [discriminate|].
    apply snoc_cons_inv in Htr as [(_ & _ & Hbad)|(tr2 & _ & Htr)]; [discriminate|].
    now destruct tr2.
  - split; [discriminate|]. intros (tr' & resp' & Htr & _). now destruct tr'.
Qed.

(** A failed call is the last call of the loop, and the loop ends with
    the failure it stands for. *)
Lemma WatchLoop_failure_last : forall keypath index stop tr out,
  WatchLoop keypath index stop tr out ->
  forall pre e post msg,
    tr = pre ++ e :: post ->
    watch_failure e = Some msg ->
    post = [] /\ out = Returned (Some (errorString msg)).
Proof.
  intros keypath index stop tr out H.
  induction H as [resp E|resp changed tr out E H IH|resp E|err|resp msg' E|resp E|];
    intros pre e post msg Htr Hf.
  - destruct pre as [|x [|y pre]]; inversion Htr; subst; discriminate.
  - destruct pre as [|x [|y pre]]; inversion Htr; subst; try discriminate.
    now apply (IH pre e post msg).
  - destruct pre as [|x [|y [|z pre]]]; inversion Htr; subst; try discriminate.
    cbn in Hf. inversion Hf; subst. now split.
  - destruct pre as [|x [|y pre]]; inversion Htr; subst; try discriminate.
    cbn in Hf. inversion Hf; subst. now split.
  - destruct pre as [|x [|y [|z pre]]]; inversion Htr; subst; try discriminate.
    cbn in Hf. inversion Hf; subst. now split.
  - destruct pre as [|x [|y [|z pre]]]; inversion Htr; subst; discriminate.
  - destruct pre; discriminate.
Qed.

Lemma WatchLoop_calls : forall keypath index stop tr out,
  WatchLoop keypath index stop tr out -> Forall (loop_call stop) tr.
Proof.
  intros keypath index stop tr out H.
  induction H; repeat constructor; assumption.
Qed.

(** A loop that is still running after [n] iterations has completed [n]
    watches, each after a snapshot of its own. *)
Lemma WatchIterations_running : forall keypath index stop n tr out,
  WatchIterations keypath index stop n tr out ->
  out = OutOfFuel ->
  count is_changed tr = n /\ List.length tr = (2 * n)%nat.
Proof.
  intros keypath index stop n tr out H.
  induction H as [n resp E|n resp changed tr out E H IH|n resp E|n err
                  |n resp msg E|n resp E|]; intros Hout; try discriminate.
  - destruct (IH Hout) as [Hc Hl]. unfold count in *. cbn. split; lia.
  - split; reflexivity.
Qed.

(** ** Runs of the Watch Loop *)

Section WatchProperties.

Context {sigma : Type}.
Variable h : Env sigma.

Lemma watch_unfold : forall fuel keypath index closeChan,
  watch h (S fuel) keypath index closeChan =
  (r <- Get h keypath true true ;;
   match r with
   | inr err =>
       ret (Some (errorString ("lock watch lookup error: " ++ Error err)))
   | inl resp =>
       if PrevIndex (Nodes (RespNode resp)) index =? 0 then ret None
       else
         r <- Watch h (Go.Join keypath (Go.Itoa (PrevIndex (Nodes (RespNode resp)) index)))
                    (ModifiedIndex (RespNode resp)) false closeChan ;;
         match r with
         | inr ErrWatchStoppedByUser =>
             ret (Some (errorString "lock watch closed"))
         | inr err =>
             ret (Some (errorString ("lock watch error:" ++ Error err)))
         | inl _ => watch h fuel keypath index closeChan
         end
   end).
Proof. reflexivity. Qed.

(** The code of [watch] runs the Watch Loop of the specification. *)
Lemma watch_refines : forall fuel keypath index closeChan w,
  WatchLoop keypath index closeChan
    (trace (watch h fuel keypath index closeChan w))
    (result (watch h fuel keypath index closeChan w)).
Proof.
  induction fuel as [|fuel IH]; intros keypath index closeChan w.
  - apply WL_running.
  - rewrite watch_unfold. unfold bind, Get, call.
    destruct (envGet h keypath true true w) as [[resp|err] w1]; cbn.
    + destruct (Z.eqb_spec (PrevIndex (Nodes (RespNode resp)) index) 0) as [E|E].
      * cbn. now apply WL_acquired.
      * unfold Watch.
        destruct (stopFires h closeChan w1) as [[|] w2]; cbn.
        { now apply WL_stopped. }
        destruct (watchAnswer h _ _ false w2) as [[[changed|msg]|] w3]; cbn.
        { apply WL_again; [exact E | apply IH]. }
        { now apply WL_watch_failed. }
        { now apply WL_waiting. }
    + apply WL_lookup_failed.
Qed.

Lemma watch_calls : forall fuel keypath index closeChan w,
  Forall (loop_call closeChan) (trace (watch h fuel keypath index closeChan w)).
Proof.
  intros. eapply WatchLoop_calls, watch_refines.
Qed.

(** The code of [watch] runs the Watch Loop for as many iterations as
    it is given, and not one less. *)
Lemma watch_iterations : forall fuel keypath index closeChan w,
  WatchIterations keypath index closeChan fuel
    (trace (watch h fuel keypath index closeChan w))
    (result (watch h fuel keypath index closeChan w)).
Proof.
  induction fuel as [|fuel IH]; intros keypath index closeChan w.
  - apply WI_running.
  - rewrite watch_unfold. unfold bind, Get, call.
    destruct (envGet h keypath true true w) as [[resp|err] w1]; cbn.
    + destruct (Z.eqb_spec (PrevIndex (Nodes (RespNode resp)) index) 0) as [E|E].
      * cbn. now apply WI_acquired.
      * unfold Watch.
        destruct (stopFires h closeChan w1) as [[|] w2]; cbn.
        { now apply WI_stopped. }
        destruct (watchAnswer h _ _ false w2) as [[[changed|msg]|] w3]; cbn.
        { apply WI_again; [exact E | apply IH]. }
        { now apply WI_watch_failed. }
        { now apply WI_waiting. }
    + apply WI_lookup_failed.
Qed.

(** C4.  The Watch Loop algorithm: every iteration of [watch] fetches
    the sibling entries afresh; it returns success exactly when the
    preceding index of the caller's index in the snapshot fetched last
    is 0; otherwise it watches the predecessor's path from the modified
    index of the parent, and when that watch completes it starts again
    from a fresh snapshot.  The calls and the outcome of [watch] run for
    [fuel] iterations are those of the Watch Loop of section 4.3
    followed for [fuel] iterations: the loop is still running only when
    each of the [fuel] iterations fetched a snapshot and completed a
    watch. *)
Theorem watch_runs_the_watch_loop : forall fuel keypath index closeChan w,
  let run := watch h fuel keypath index closeChan w in
  WatchIterations keypath index closeChan fuel (trace run) (result run)
  /\ (result run = Returned None <->
      exists tr resp,
        trace run = tr ++ [EGet keypath true true (inl resp)]
        /\ PrevIndex (Nodes (RespNode resp)) index = 0)
  /\ (result run = OutOfFuel ->
      count is_changed (trace run) = fuel
      /\ List.length (trace run) = (2 * fuel)%nat).
Proof.
  intros fuel keypath index closeChan w run. split; [|split].
  - apply watch_iterations.
  - eapply WatchLoop_success, watch_refines.
  - intros Hout. eapply WatchIterations_running; [apply watch_iterations|exact Hout].
Qed.

(** C5.  In every invocation of [watch], a watch that was stopped by
    the stop signal, a lookup that failed and a watch that failed are
    each the last call of the loop: the loop returns the failure
    ("lock watch closed" for the stopped watch) and calls nothing
    more. *)
Theorem watch_failure_ends_the_loop :
  forall fuel keypath index closeChan w pre e post msg,
    trace (watch h fuel keypath index closeChan w) = pre ++ e :: post ->
    watch_failure e = Some msg ->
    post = []
    /\ result (watch h fuel keypath index closeChan w)
       = Returned (Some (errorString msg)).
Proof.
  intros fuel keypath index closeChan w pre e post msg Htr Hf.
  eapply WatchLoop_failure_last; eauto using watch_refines.
Qed.

End WatchProperties.

(** ** Runs of the keep-alive loop *)

(** Durations of up to 9223372036 seconds fit a [time.Duration]. *)
Lemma seconds_in_range : forall n,
  - 9223372036 <= n <= 9223372036 -> Go.seconds n = n * Go.Second.
Proof.
  intros n Hn. unfold Go.seconds, Go.int64, Go.Second.
  change (2 ^ 63) with 9223372036854775808.
  change (2 ^ 64) with 18446744073709551616.
  rewrite Z.mod_small by lia. lia.
Qed.

Lemma stop_select_closed : forall sched r,
  stop_select sched = Some r -> In r sched /\ stop_is_closed r = true.
Proof.
  induction sched as [|r0 sched IH]; intros r H; [discriminate|].
  cbn [stop_select] in H. destruct (case_taken r0) eqn:E.
  - destruct (IH r H) as [Hin Hc]. split; [now right|exact Hc].
  - inversion H; subst r0. split; [now left|].
    destruct r as [| |[|]]; cbn in E; try discriminate; reflexivity.
Qed.

Section KeepAliveProperties.

Context {sigma : Type}.
Variable h : Env sigma.

(** One iteration of the loop. *)
Lemma ttlKeepAlive_step : forall r sched k value ttl w,
  ttlKeepAlive h (r :: sched) k value ttl w =
  match case_taken r with
  | timerFired =>
      let '(u, w1) := envUpdate h k value (Go.uint64 ttl) w in
      let rest := ttlKeepAlive h sched k value ttl w1 in
      mkRun (result rest) (final rest)
            (ETimer (Go.seconds (Z.quot ttl 2)) :: ESelect r
             :: EUpdate k value (Go.uint64 ttl) u :: trace rest)
  | stopClosed =>
      mkRun (Returned tt) w [ETimer (Go.seconds (Z.quot ttl 2)); ESelect r]
  end.
Proof.
  intros r sched k value ttl w. cbn [ttlKeepAlive].
  unfold bind, emit. cbn [result final trace].
  destruct (case_taken r); [|reflexivity].
  unfold Update, call.
  destruct (envUpdate h k value (Go.uint64 ttl) w) as [u w1].
  cbn [result final trace].
  destruct (ttlKeepAlive h sched k value ttl w1) as [[[]| |] w2 tr]; reflexivity.
Qed.

(** C7, amended.  The Lease Keeper.  Every iteration of [ttlKeepAlive]
    starts a timer of [ttl / 2] seconds, the quotient truncated and the
    duration counted in [int64] nanoseconds, and waits in a [select];
    each [select] that takes the timer is followed by one renewal,
    [Update] of the key with the same value and [uint64(ttl)], whatever
    the renewals before it came to.  The loop returns at the first
    [select] that takes the stop case, which finds [stopChan] closed, and
    calls nothing after it; it does not return otherwise.  The timer
    lasts [ttl / 2] whole seconds, one second at least, for a ttl from 2
    to 18446744073; for a ttl of 0 or 1 it lasts no time at all. *)
Theorem keep_alive_renews_until_stopped : forall sched k value ttl w,
  let run := ttlKeepAlive h sched k value ttl w in
  let timer := ETimer (Go.seconds (Z.quot ttl 2)) in
  (exists answers,
     List.length answers = List.length (before_stop sched)
     /\ trace run
        = flat_map (fun ru => [timer; ESelect (fst ru);
                               EUpdate k value (Go.uint64 ttl) (snd ru)])
            (combine (before_stop sched) answers)
          ++ match stop_select sched with
             | Some r => [timer; ESelect r]
             | None => []
             end)
  /\ result run
     = match stop_select sched with
       | Some _ => Returned tt
       | None => OutOfFuel
       end
  /\ (forall r, stop_select sched = Some r ->
      In r sched /\ stop_is_closed r = true)
  /\ (2 <= ttl <= 18446744073 ->
      Go.seconds (Z.quot ttl 2) = Z.quot ttl 2 * Go.Second
      /\ Go.Second <= Go.seconds (Z.quot ttl 2))
  /\ (0 <= ttl <= 1 -> Go.seconds (Z.quot ttl 2) = 0).
Proof.
  intros sched k value ttl w run timer.
  split; [|split; [|split; [|split]]].
  - subst run. revert w.
    induction sched as [|r sched IH]; intros w.
    + exists []. split; reflexivity.
    + rewrite ttlKeepAlive_step. cbn [before_stop stop_select].
      destruct (case_taken r).
      * destruct (envUpdate h k value (Go.uint64 ttl) w) as [u w1].
        destruct (IH w1) as (answers & Hlen & Htr).
        exists (u :: answers). cbn [result final trace]. split.
        { cbn. now rewrite Hlen. }
        { rewrite Htr. reflexivity. }
      * exists []. split; reflexivity.
  - subst run. revert w.
    induction sched as [|r sched IH]; intros w; [reflexivity|].
    rewrite ttlKeepAlive_step. cbn [stop_select].
    destruct (case_taken r); [|reflexivity].
    destruct (envUpdate h k value (Go.uint64 ttl) w) as [u w1].
    cbn [result]. apply IH.
  - apply stop_select_closed.
  - intros Httl.
    assert (Hq : 1 <= Z.quot ttl 2 <= 9223372036).
    { rewrite Z.quot_div_nonneg by lia.
      split; [apply Z.div_le_lower_bound; lia|].
      apply Z.lt_succ_r. apply Z.div_lt_upper_bound; lia. }
    rewrite seconds_in_range by lia. unfold Go.Second. lia.
  - intros Httl.
    assert (Hq : Z.quot ttl 2 = 0).
    { rewrite Z.quot_div_nonneg by lia. apply Z.div_small. lia. }
    rewrite Hq. reflexivity.
Qed.

End KeepAliveProperties.

(** ** Runs of the handler *)

(** Both sides of an equation between traces, nested to the right. *)
Ltac norm_trace := repeat (cbn [app]; rewrite <- ?app_assoc); cbn [app].

Section HandlerProperties.

Context {sigma : Type}.
Variable h : Env sigma.
Variable prefix : string.

Lemma findExistingNode_run : forall keypath value w,
  findExistingNode h keypath value w =
  if 0 <? Go.len value then
    let '(r, w1) := envGet h keypath true true w in
    mkRun (Returned match r with
                    | inl resp =>
                        match FindByValue (Nodes (RespNode resp)) value with
                        | Some node => node_index node
                        | None => 0
                        end
                    | inr _ => 0
                    end)
          w1 [EGet keypath true true r]
  else mkRun (Returned 0) w [].
Proof.
  intros keypath value w. unfold findExistingNode.
  destruct (0 <? Go.len value); [|reflexivity].
  unfold bind, Get, call.
  destruct (envGet h keypath true true w) as [[resp|err] w1]; cbn.
  - destruct (FindByValue (Nodes (RespNode resp)) value); reflexivity.
  - reflexivity.
Qed.

Lemma createNode_run : forall fuel keypath value ttl closeChan w,
  createNode h fuel keypath value ttl closeChan w =
  let v := entryValue value in
  let '(r, w1) := envAddChild h keypath v (Go.uint64 ttl) w in
  match r with
  | inr err =>
      mkRun (Returned (0, Some (errorString
               ("acquire lock index error: " ++ Error err)%string)))
            w1 [EAddChild keypath v (Go.uint64 ttl) r]
  | inl resp =>
      let indexpath := Key (RespNode resp) in
      let index := node_index (RespNode resp) in
      let loop := watch h fuel keypath index closeChan w1 in
      let started :=
        EAddChild keypath v (Go.uint64 ttl) r
        :: EGoKeepAlive indexpath v ttl :: trace loop in
      match result loop with
      | Returned None =>
          let '(u, w3) := envUpdate h indexpath v (Go.uint64 ttl) (final loop) in
          mkRun (Returned (index, None)) w3
                (started ++ [EUpdate indexpath v (Go.uint64 ttl) u])
      | Returned (Some e) =>
          let '(b, w3) := pollClose h closeChan (final loop) in
          let '(d, w4) := envDelete h indexpath false w3 in
          mkRun (Returned
                   (index,
                    Some (if b
                          then errorString "acquire lock error: user interrupted"
                          else e)))
                w4
                (started ++ [ESelectClose b; EDelete indexpath false d])
      | Blocked => mkRun Blocked (final loop) started
      | OutOfFuel => mkRun OutOfFuel (final loop) started
      end
  end.
Proof.
  intros fuel keypath value ttl closeChan w.
  unfold createNode, bind, AddChild, emit, call. cbn zeta.
  destruct (envAddChild h keypath (entryValue value) (Go.uint64 ttl) w)
    as [[resp|err] w1]; cbn; [|reflexivity].
  fold (node_index (RespNode resp)).
  destruct (watch h fuel keypath (node_index (RespNode resp)) closeChan w1)
    as [[[e|]| |] w2 tr]; cbn; try reflexivity.
  - unfold selectClose, Delete, call.
    destruct (pollClose h closeChan w2) as [[|] w3]; cbn;
      destruct (envDelete h (Key (RespNode resp)) false w3) as [d w4]; cbn;
      rewrite <- ?app_assoc; reflexivity.
  - unfold Update, call.
    destruct (envUpdate h (Key (RespNode resp)) (entryValue value)
                (Go.uint64 ttl) w2) as [u w3]; cbn.
    rewrite ?app_nil_r. reflexivity.
Qed.

Lemma len_pos : forall s, s <> ""%string -> (0 <? Go.len s) = true.
Proof.
  intros [|c s] Hs; [congruence|]. unfold Go.len. cbn [String.length].
  apply Z.ltb_lt. lia.
Qed.

Lemma acquireHandler_bad_timeout : forall fuel req w,
  snd (parseTimeout (form_timeout req)) = false ->
  acquireHandler h prefix fuel req w =
  mkRun (Returned (httpError ("invalid timeout: " ++ form_timeout req)%string
                             StatusInternalServerError))
        (envSyncCluster h w) [ESyncCluster].
Proof.
  intros fuel req w Ht. unfold acquireHandler, bind, SyncCluster, call.
  destruct (parseTimeout (form_timeout req)) as [t ok]. cbn in Ht. subst ok.
  reflexivity.
Qed.

Lemma acquireHandler_bad_ttl : forall fuel req w,
  snd (parseTimeout (form_timeout req)) = true ->
  snd (Go.Atoi (form_ttl req)) = false ->
  acquireHandler h prefix fuel req w =
  mkRun (Returned (httpError ("invalid ttl: " ++ form_ttl req)%string
                             StatusInternalServerError))
        (envSyncCluster h w) [ESyncCluster].
Proof.
  intros fuel req w Ht Hl. unfold acquireHandler, bind, SyncCluster, call.
  destruct (parseTimeout (form_timeout req)) as [t ok]. cbn in Ht. subst ok.
  destruct (Go.Atoi (form_ttl req)) as [l ok]. cbn in Hl. subst ok.
  reflexivity.
Qed.

(** The handler on the path that watches an entry it found. *)
Lemma acquireHandler_reuse : forall fuel req w ttl index w1 tr1,
  snd (parseTimeout (form_timeout req)) = true ->
  Go.Atoi (form_ttl req) = (ttl, true) ->
  findExistingNode h (Go.Join prefix (var_key req)) (form_value req)
    (envSyncCluster h w) = mkRun (Returned index) w1 tr1 ->
  0 < index ->
  let loop := watch h fuel (Go.Join prefix (var_key req)) index nilChan w1 in
  acquireHandler h prefix fuel req w =
  respond (match result loop with
           | Returned err => Returned (index, err)
           | Blocked => Blocked
           | OutOfFuel => OutOfFuel
           end)
          (final loop) (ESyncCluster :: tr1 ++ trace loop).
Proof.
  intros fuel req w ttl index w1 tr1 Ht Hl Hfind Hpos loop.
  unfold acquireHandler, bind, SyncCluster, emit, call.
  destruct (parseTimeout (form_timeout req)) as [t ok]. cbn in Ht. subst ok.
  rewrite Hl. cbn [negb result final trace]. rewrite Hfind.
  cbn [result final trace].
  apply Z.ltb_lt in Hpos. rewrite Hpos. fold loop.
  destruct loop as [[[e|]| |] w2 tr]; cbn;
    rewrite <- ?app_assoc, ?app_nil_r; reflexivity.
Qed.

(** The handler on the path that creates an entry. *)
Lemma acquireHandler_create : forall fuel req w ttl index w1 tr1,
  snd (parseTimeout (form_timeout req)) = true ->
  Go.Atoi (form_ttl req) = (ttl, true) ->
  findExistingNode h (Go.Join prefix (var_key req)) (form_value req)
    (envSyncCluster h w) = mkRun (Returned index) w1 tr1 ->
  index <= 0 ->
  let created :=
    createNode h fuel (Go.Join prefix (var_key req)) (form_value req) ttl
               closeNotify w1 in
  acquireHandler h prefix fuel req w =
  respond (result created) (final created)
          (ESyncCluster :: tr1 ++ trace created).
Proof.
  intros fuel req w ttl index w1 tr1 Ht Hl Hfind Hpos created.
  unfold acquireHandler, bind, SyncCluster, emit, call.
  destruct (parseTimeout (form_timeout req)) as [t ok]. cbn in Ht. subst ok.
  rewrite Hl. cbn [negb result final trace]. rewrite Hfind.
  cbn [result final trace].
  apply Z.ltb_ge in Hpos. rewrite Hpos. fold created.
  destruct created as [[[i [e|]]| |] w2 tr]; cbn;
    rewrite <- ?app_assoc, ?app_nil_r; reflexivity.
Qed.

Lemma entryValue_nonempty : forall s, s <> ""%string -> entryValue s = s.
Proof.
  intros [|c s] Hs; [congruence|]. unfold entryValue, Go.len.
  cbn [String.length]. destruct (Z.eqb_spec (Z.of_nat (S (String.length s))) 0); [lia|reflexivity].
Qed.

Lemma findExistingNode_returns : forall keypath value w,
  exists index,
    findExistingNode h keypath value w
    = mkRun (Returned index) (final (findExistingNode h keypath value w))
            (trace (findExistingNode h keypath value w)).
Proof.
  intros keypath value w. rewrite findExistingNode_run.
  destruct (0 <? Go.len value); [|eexists; reflexivity].
  destruct (envGet h keypath true true w) as [r w1]. eexists; reflexivity.
Qed.

Lemma Forall_loop_call_weaken : forall stop (P : Event -> Prop) tr,
  (forall e, loop_call stop e -> P e) ->
  Forall (loop_call stop) tr -> Forall P tr.
Proof.
  intros stop P tr HP H. eapply Forall_impl; [exact HP|exact H].
Qed.

(** C3.  Cleanup on failure, and the frame condition of the reuse
    path: when a call has created its own entry (nothing was found,
    [AddChild] answered with the entry) and the Watch Loop returns an
    error, the handler deletes that entry and reports a failure; when
    the call has resolved an existing entry through the lookup by value
    (a positive index), it makes no [Delete] call at all, whatever the
    Watch Loop comes to. *)
Theorem cleanup_on_failure : forall fuel req w ttl index w1 tr1,
  snd (parseTimeout (form_timeout req)) = true ->
  Go.Atoi (form_ttl req) = (ttl, true) ->
  findExistingNode h (Go.Join prefix (var_key req)) (form_value req)
    (envSyncCluster h w) = mkRun (Returned index) w1 tr1 ->
  let keypath := Go.Join prefix (var_key req) in
  let run := acquireHandler h prefix fuel req w in
  (index <= 0 ->
   forall resp w2 e,
     envAddChild h keypath (entryValue (form_value req)) (Go.uint64 ttl) w1
     = (inl resp, w2) ->
     result (watch h fuel keypath (node_index (RespNode resp)) closeNotify w2)
     = Returned (Some e) ->
     exists tr b d msg,
       trace run = tr ++ [ESelectClose b;
                          EDelete (Key (RespNode resp)) false d;
                          ECloseStopChan]
       /\ result run = Returned (httpError msg StatusInternalServerError))
  /\ (0 < index -> Forall (fun e => is_Delete e = false) (trace run)).
Proof.
  intros fuel req w ttl index w1 tr1 Ht Hl Hfind keypath run. split.
  - intros Hidx resp w2 e Hadd Hloop. subst run keypath.
    rewrite (acquireHandler_create fuel req w ttl index w1 tr1 Ht Hl Hfind Hidx).
    rewrite createNode_run. cbn zeta. rewrite Hadd, Hloop.
    destruct (pollClose h closeNotify _) as [b w3].
    destruct (envDelete h (Key (RespNode resp)) false w3) as [d w4].
    cbn [result final trace respond].
    exists (ESyncCluster :: tr1
            ++ EAddChild (Go.Join prefix (var_key req))
                 (entryValue (form_value req)) (Go.uint64 ttl) (inl resp)
            :: EGoKeepAlive (Key (RespNode resp))
                 (entryValue (form_value req)) ttl
            :: trace (watch h fuel (Go.Join prefix (var_key req))
                        (node_index (RespNode resp)) closeNotify w2)),
      b, d.
    eexists. split; [|reflexivity]. norm_trace. reflexivity.
  - intros Hidx. subst run keypath.
    rewrite (acquireHandler_reuse fuel req w ttl index w1 tr1 Ht Hl Hfind Hidx).
    assert (Hfound : Forall (fun e => is_Delete e = false) tr1).
    { rewrite findExistingNode_run in Hfind.
      destruct (0 <? Go.len (form_value req)).
      - destruct (envGet h _ true true _) as [r w']. inversion Hfind; subst.
        now repeat constructor.
      - inversion Hfind; subst. constructor. }
    assert (Hloop : Forall (fun e => is_Delete e = false)
                      (trace (watch h fuel (Go.Join prefix (var_key req)) index nilChan w1))).
    { eapply Forall_loop_call_weaken; [|apply watch_calls].
      intros [] Hc; cbn in Hc; try contradiction; reflexivity. }
    destruct (watch h fuel (Go.Join prefix (var_key req)) index nilChan w1)
      as [[[e|]| |] w2 tr]; cbn [result final trace respond] in *;
      repeat first [apply Forall_cons | apply Forall_app; split
                   | assumption | reflexivity | apply Forall_nil].
Qed.

(** C9.  On the creation path, when the Watch Loop succeeds, the handler
    makes the final [Update] of the entry and reports success with the
    index of the entry whatever that [Update] answers, an error
    included. *)
Theorem final_update_ignored : forall fuel req w ttl index w1 tr1 resp w2 u w3,
  snd (parseTimeout (form_timeout req)) = true ->
  Go.Atoi (form_ttl req) = (ttl, true) ->
  let keypath := Go.Join prefix (var_key req) in
  let value := entryValue (form_value req) in
  findExistingNode h keypath (form_value req) (envSyncCluster h w)
  = mkRun (Returned index) w1 tr1 ->
  index <= 0 ->
  envAddChild h keypath value (Go.uint64 ttl) w1 = (inl resp, w2) ->
  let loop := watch h fuel keypath (node_index (RespNode resp)) closeNotify w2 in
  result loop = Returned None ->
  envUpdate h (Key (RespNode resp)) value (Go.uint64 ttl) (final loop) = (u, w3) ->
  let run := acquireHandler h prefix fuel req w in
  result run = Returned (httpWrite (Go.Itoa (node_index (RespNode resp))))
  /\ exists tr,
       trace run = tr ++ [EUpdate (Key (RespNode resp)) value (Go.uint64 ttl) u;
                          ECloseStopChan].
Proof.
  intros fuel req w ttl index w1 tr1 resp w2 u w3 Ht Hl keypath value
         Hfind Hidx Hadd loop Hloop Hupd run.
  subst run keypath value.
  rewrite (acquireHandler_create fuel req w ttl index w1 tr1 Ht Hl Hfind Hidx).
  rewrite createNode_run. cbn zeta. rewrite Hadd. fold loop. rewrite Hloop, Hupd.
  cbn [result final trace respond]. split; [reflexivity|].
  exists (ESyncCluster :: tr1
          ++ EAddChild (Go.Join prefix (var_key req))
               (entryValue (form_value req)) (Go.uint64 ttl) (inl resp)
          :: EGoKeepAlive (Key (RespNode resp))
               (entryValue (form_value req)) ttl
          :: trace loop).
  norm_trace. reflexivity.
Qed.

Lemma findExistingNode_trace_loop : forall keypath value w stop,
  Forall (loop_call stop) (trace (findExistingNode h keypath value w)).
Proof.
  intros keypath value w stop. rewrite findExistingNode_run.
  destruct (0 <? Go.len value); [|constructor].
  destruct (envGet h keypath true true w) as [r w1]. now repeat constructor.
Qed.

(** C2.  Idempotent retry: when the value is not empty, the lookup
    succeeds and finds a live entry with that value (its index, assigned
    by the store, is positive), the call makes no [AddChild] call: it
    runs the Watch Loop for the index of that entry, without a close
    channel, and on success answers with that index. *)
Theorem idempotent_retry : forall fuel req w ttl resp w1 node,
  snd (parseTimeout (form_timeout req)) = true ->
  Go.Atoi (form_ttl req) = (ttl, true) ->
  form_value req <> ""%string ->
  let keypath := Go.Join prefix (var_key req) in
  envGet h keypath true true (envSyncCluster h w) = (inl resp, w1) ->
  FindByValue (Nodes (RespNode resp)) (form_value req) = Some node ->
  0 < node_index node ->
  let loop := watch h fuel keypath (node_index node) nilChan w1 in
  let run := acquireHandler h prefix fuel req w in
  Forall (fun e => is_AddChild e = false) (trace run)
  /\ trace run
     = ESyncCluster :: EGet keypath true true (inl resp) :: trace loop
       ++ match result loop with
          | Returned _ => [ECloseStopChan]
          | _ => []
          end
  /\ result run
     = match result loop with
       | Returned None =>
           Returned (httpWrite (Go.Itoa (node_index node)))
       | Returned (Some err) =>
           Returned (httpError (Error err) StatusInternalServerError)
       | Blocked => Blocked
       | OutOfFuel => OutOfFuel
       end.
Proof.
  intros fuel req w ttl resp w1 node Ht Hl Hv keypath Hget Hfind Hpos loop run.
  assert (Hrun : findExistingNode h keypath (form_value req) (envSyncCluster h w)
                 = mkRun (Returned (node_index node)) w1
                         [EGet keypath true true (inl resp)]).
  { rewrite findExistingNode_run, (len_pos _ Hv), Hget, Hfind. reflexivity. }
  subst run.
  rewrite (acquireHandler_reuse fuel req w ttl _ _ _ Ht Hl Hrun Hpos).
  fold keypath. fold loop.
  assert (Hloop : Forall (fun e => is_AddChild e = false) (trace loop)).
  { eapply Forall_loop_call_weaken; [|apply watch_calls].
    intros [] Hc; cbn in Hc; try contradiction; reflexivity. }
  destruct loop as [[[e|]| |] w2 tr]; cbn [result final trace respond] in *;
    (split; [|split; [norm_trace; rewrite ?app_nil_r; reflexivity|reflexivity]]);
    repeat first [apply Forall_cons | apply Forall_app; split
                 | assumption | reflexivity | apply Forall_nil].
Qed.

(** C6, amended.  Validation of the parameters: a timeout that is not
    empty and does not parse with [strconv.Atoi], and a ttl that does
    not parse with it, are answered with an error of status 500 once
    the client has synchronised the cluster and before any call of the
    store; every ttl that parses, a negative one included, is accepted
    and the handler goes on to the store. *)
Theorem malformed_request_rejected : forall fuel req w,
  let run := acquireHandler h prefix fuel req w in
  (snd (parseTimeout (form_timeout req)) = false ->
   run = mkRun (Returned (httpError ("invalid timeout: " ++ form_timeout req)%string
                                    StatusInternalServerError))
               (envSyncCluster h w) [ESyncCluster])
  /\ (snd (parseTimeout (form_timeout req)) = true ->
      snd (Go.Atoi (form_ttl req)) = false ->
      run = mkRun (Returned (httpError ("invalid ttl: " ++ form_ttl req)%string
                                       StatusInternalServerError))
                  (envSyncCluster h w) [ESyncCluster])
  /\ (snd (parseTimeout (form_timeout req)) = true ->
      snd (Go.Atoi (form_ttl req)) = true ->
      exists e tr, trace run = ESyncCluster :: e :: tr /\ store_call e = true).
Proof.
  intros fuel req w run. subst run. split; [|split].
  - apply acquireHandler_bad_timeout.
  - apply acquireHandler_bad_ttl.
  - intros Ht Hl.
    destruct (Go.Atoi (form_ttl req)) as [ttl ok] eqn:Ettl. cbn in Hl. subst ok.
    destruct (findExistingNode_returns (Go.Join prefix (var_key req))
                (form_value req) (envSyncCluster h w)) as [index Hfind].
    destruct (Z.lt_ge_cases 0 index) as [Hpos|Hle].
    + rewrite (acquireHandler_reuse fuel req w ttl _ _ _ Ht Ettl Hfind Hpos).
      rewrite findExistingNode_run in Hfind |- *.
      destruct (0 <? Go.len (form_value req)).
      * destruct (envGet h _ true true _) as [r w1].
        destruct (watch h fuel _ index nilChan _) as [[[e|]| |] w2 tr];
          cbn; eexists _, _; split; reflexivity.
      * inversion Hfind; subst. lia.
    + rewrite (acquireHandler_create fuel req w ttl _ _ _ Ht Ettl Hfind Hle).
      rewrite findExistingNode_run.
      destruct (0 <? Go.len (form_value req)).
      * destruct (envGet h _ true true _) as [r w1].
        destruct (createNode h fuel _ _ ttl closeNotify _) as [[[i [e|]]| |] w2 tr];
          cbn; eexists _, _; split; reflexivity.
      * cbn [final trace]. rewrite createNode_run. cbn zeta.
        destruct (envAddChild h _ _ _ _) as [[resp|err] w1].
        2:{ cbn. eexists _, _; split; reflexivity. }
        destruct (watch h fuel _ _ closeNotify w1) as [[[e|]| |] w2 tr];
          cbn [result final trace].
        { destruct (pollClose h closeNotify w2) as [b w3].
          destruct (envDelete h _ false w3) as [d w4].
          cbn. eexists _, _; split; reflexivity. }
        { destruct (envUpdate h _ _ _ w2) as [u w3].
          cbn. eexists _, _; split; reflexivity. }
        { cbn. eexists _, _; split; reflexivity. }
        { cbn. eexists _, _; split; reflexivity. }
Qed.

(** C10.  When the value is not empty and the [Get] that looks for an
    existing entry fails, [findExistingNode] answers 0 as it does when
    there is no entry: the error is not reported, and the next call of
    the handler is the [AddChild] that creates an entry with the same
    value.  So a second entry can be created for a value whose entry is
    still there: the last part runs the handler on a store that holds
    an entry of "clientA" and fails the lookup once. *)
Theorem lookup_error_swallowed : forall fuel req w ttl err w1,
  snd (parseTimeout (form_timeout req)) = true ->
  Go.Atoi (form_ttl req) = (ttl, true) ->
  form_value req <> ""%string ->
  let keypath := Go.Join prefix (var_key req) in
  envGet h keypath true true (envSyncCluster h w) = (inr err, w1) ->
  let run := acquireHandler h prefix fuel req w in
  findExistingNode h keypath (form_value req) (envSyncCluster h w)
  = mkRun (Returned 0) w1 [EGet keypath true true (inr err)]
  /\ (exists r tr,
        trace run
        = ESyncCluster :: EGet keypath true true (inr err)
          :: EAddChild keypath (form_value req) (Go.uint64 ttl) r :: tr)
  /\ (exists (s : TestStore) (live : Node),
        In live (entries s) /\ Value live = "clientA"%string
        /\ getFaults s = [Some "connection refused"%string]
        /\ let after :=
             final (acquireHandler testEnv lockPrefix 8
                      (mkRequest "db" "clientA" "" "10") s) in
           In live (entries after)
           /\ map Key (filter (fun n => String.eqb (Value n) "clientA")
                              (entries after))
              = ["/_etcd/mod/lock/db/3"; "/_etcd/mod/lock/db/4"]%string).
Proof.
  intros fuel req w ttl err w1 Ht Hl Hv keypath Hget run.
  assert (Hrun : findExistingNode h keypath (form_value req) (envSyncCluster h w)
                 = mkRun (Returned 0) w1 [EGet keypath true true (inr err)]).
  { rewrite findExistingNode_run, (len_pos _ Hv), Hget. reflexivity. }
  split; [exact Hrun|split].
  - subst run.
    rewrite (acquireHandler_create fuel req w ttl _ _ _ Ht Hl Hrun (Z.le_refl 0)).
    rewrite createNode_run. cbn zeta. rewrite (entryValue_nonempty _ Hv).
    fold keypath.
    destruct (envAddChild h keypath (form_value req) (Go.uint64 ttl) w1)
      as [[resp|e] w2].
    2:{ cbn. eexists _, _; reflexivity. }
    destruct (watch h fuel keypath _ closeNotify w2) as [[[e|]| |] w3 tr];
      cbn [result final trace].
    + destruct (pollClose h closeNotify w3) as [b w4].
      destruct (envDelete h _ false w4) as [d w5].
      cbn. eexists _, _; reflexivity.
    + destruct (envUpdate h _ _ _ w3) as [u w4].
      cbn. eexists _, _; reflexivity.
    + cbn. eexists _, _; reflexivity.
    + cbn. eexists _, _; reflexivity.
  - exists (mkTestStore [entry 3 "clientA"] 4 [] [Some "connection refused"%string]
                        [] [] [] []),
           (entry 3 "clientA").
    vm_compute. repeat split; auto.
Qed.


End HandlerProperties.

(** ** The statements that fail, on concrete calls *)

(** C6 as stated fails: a ttl of -1 is not a non-negative integer, yet
    the handler accepts it, creates the entry with the ttl
    18446744073709551615 and answers with the index. *)
Lemma ttl_counterexample :
  ~ ttl_statement testEnv lockPrefix 8 (mkRequest "db" "clientA" "" "-1")
      (store [] 1 [] [] []).
Proof.
  intros H. destruct H as [[msg Hmsg] _].
  - intros [n [Hn Hpos]]. vm_compute in Hn. inversion Hn; subst. lia.
  - vm_compute in Hmsg. discriminate Hmsg.
Qed.


(** ** The properties on concrete calls *)

(** C5 on a call: the close channel delivers during the watch of entry 1;
    the stopped watch is the last call and the loop returns "lock watch
    closed". *)
Lemma watch_failure_ends_the_loop_witness :
  @nil Event = []
  /\ result (watch testEnv 4 "/_etcd/mod/lock/db" 2 closeNotify
               (store [entry 1 "other"; entry 2 "me"] 3 [] [true] []))
     = Returned (Some (errorString "lock watch closed")).
Proof.
  refine (watch_failure_ends_the_loop testEnv 4 _ 2 closeNotify _ [_] _ []
            "lock watch closed" _ _); reflexivity.
Defined.

(** C3 on two calls: "clientB" queues behind entry 1 and its watch is
    stopped, so its entry 2 is deleted; "clientB" asking again while its
    entry 2 waits deletes nothing. *)
Lemma cleanup_on_failure_witness :
  (exists tr b d msg,
     trace (acquire (store [entry 1 "other"] 2 [] [true] [false]) "clientB" "10")
     = tr ++ [ESelectClose b; EDelete "/_etcd/mod/lock/db/2" false d;
              ECloseStopChan]
     /\ result (acquire (store [entry 1 "other"] 2 [] [true] [false]) "clientB" "10")
        = Returned (httpError msg StatusInternalServerError))
  /\ Forall (fun e => is_Delete e = false)
       (trace (acquire (store [entry 1 "other"; entry 2 "clientB"] 3
                          [failing "EOF"] [] [])
                       "clientB" "10")).
Proof.
  split.
  - exact (proj1 (cleanup_on_failure testEnv lockPrefix 8
                    (mkRequest "db" "clientB" "" "10")
                    (store [entry 1 "other"] 2 [] [true] [false])
                    10 0 _ _ eq_refl eq_refl eq_refl)
                 (Z.le_refl 0) (mkResponse (mkNode "/_etcd/mod/lock/db/2" "clientB" 2 []))
                 _ (errorString "lock watch closed") eq_refl eq_refl).
  - exact (proj2 (cleanup_on_failure testEnv lockPrefix 8
                    (mkRequest "db" "clientB" "" "10")
                    (store [entry 1 "other"; entry 2 "clientB"] 3
                       [failing "EOF"] [] [])
                    10 2 _ _ eq_refl eq_refl eq_refl)
                 eq_refl).
Defined.

(** C9 on a call: the first entry of the lock has no predecessor; the
    final [Update] fails and the handler still answers with index 1. *)
Lemma final_update_ignored_witness :
  result (acquireHandler testEnv lockPrefix 8 (mkRequest "db" "clientA" "" "10")
            (mkTestStore [] 1 [] [] [Some "etcd cluster unreachable"] [] [] []))
  = Returned (httpWrite "1")
  /\ exists tr,
       trace (acquireHandler testEnv lockPrefix 8 (mkRequest "db" "clientA" "" "10")
                (mkTestStore [] 1 [] [] [Some "etcd cluster unreachable"] [] [] []))
       = tr ++ [EUpdate "/_etcd/mod/lock/db/1" "clientA" 10
                        (inr (errorString "etcd cluster unreachable"));
                ECloseStopChan].
Proof.
  exact (final_update_ignored testEnv lockPrefix 8
           (mkRequest "db" "clientA" "" "10")
           (mkTestStore [] 1 [] [] [Some "etcd cluster unreachable"] [] [] [])
           10 0 _ _ (mkResponse (mkNode "/_etcd/mod/lock/db/1" "clientA" 1 []))
           _ (inr (errorString "etcd cluster unreachable")) _
           eq_refl eq_refl eq_refl (Z.le_refl 0) eq_refl eq_refl eq_refl).
Defined.

(** C2 on a call: "clientB" asks again while its entry 2 waits behind
    entry 1; no entry is created, and when entry 1 goes away the handler
    answers with index 2. *)
Lemma idempotent_retry_witness :
  Forall (fun e => is_AddChild e = false)
    (trace (acquire (store [entry 1 "other"; entry 2 "clientB"] 3 [released] [] [])
                    "clientB" "10"))
  /\ result (acquire (store [entry 1 "other"; entry 2 "clientB"] 3 [released] [] [])
                     "clientB" "10")
     = Returned (httpWrite "2").
Proof.
  pose proof (idempotent_retry testEnv lockPrefix 8
                (mkRequest "db" "clientB" "" "10")
                (store [entry 1 "other"; entry 2 "clientB"] 3 [released] [] [])
                10 _ _ (entry 2 "clientB")
                eq_refl eq_refl ltac:(discriminate) eq_refl eq_refl eq_refl)
    as [Hno [_ Hres]].
  split; [exact Hno|exact Hres].
Defined.

(** C6 on three calls: a timeout and a ttl that do not parse are
    rejected after the cluster sync alone; the ttl -1 goes on to the
    store. *)
Lemma malformed_request_rejected_witness :
  acquireHandler testEnv lockPrefix 8 (mkRequest "db" "clientA" "soon" "10")
    (store [] 1 [] [] [])
  = mkRun (Returned (httpError "invalid timeout: soon" StatusInternalServerError))
          (store [] 1 [] [] []) [ESyncCluster]
  /\ acquireHandler testEnv lockPrefix 8 (mkRequest "db" "clientA" "5" "ten")
       (store [] 1 [] [] [])
     = mkRun (Returned (httpError "invalid ttl: ten" StatusInternalServerError))
             (store [] 1 [] [] []) [ESyncCluster]
  /\ exists e tr,
       trace (acquireHandler testEnv lockPrefix 8 (mkRequest "db" "clientA" "" "-1")
                (store [] 1 [] [] []))
       = ESyncCluster :: e :: tr
       /\ store_call e = true.
Proof.
  split; [|split].
  - exact (proj1 (malformed_request_rejected testEnv lockPrefix 8
                    (mkRequest "db" "clientA" "soon" "10") (store [] 1 [] [] []))
                 eq_refl).
  - exact (proj1 (proj2 (malformed_request_rejected testEnv lockPrefix 8
                           (mkRequest "db" "clientA" "5" "ten")
                           (store [] 1 [] [] [])))
                 eq_refl eq_refl).
  - exact (proj2 (proj2 (malformed_request_rejected testEnv lockPrefix 8
                           (mkRequest "db" "clientA" "" "-1")
                           (store [] 1 [] [] [])))
                 eq_refl eq_refl).
Defined.

(** C10 on a call: the store holds entry 3 of "clientA" and fails the
    lookup; the handler goes on and creates entry 4 for "clientA". *)
Lemma lookup_error_swallowed_witness :
  exists r tr,
    trace (acquireHandler testEnv lockPrefix 8 (mkRequest "db" "clientA" "" "10")
             (mkTestStore [entry 3 "clientA"] 4 [] [Some "connection refused"]
                          [] [] [] []))
    = ESyncCluster
      :: EGet "/_etcd/mod/lock/db" true true
              (inr (errorString "connection refused"))
      :: EAddChild "/_etcd/mod/lock/db" "clientA" 10 r :: tr.
Proof.
  exact (proj1 (proj2
           (lookup_error_swallowed testEnv lockPrefix 8
              (mkRequest "db" "clientA" "" "10")
              (mkTestStore [entry 3 "clientA"] 4 [] [Some "connection refused"]
                           [] [] [] [])
              10 (errorString "connection refused") _
              eq_refl eq_refl ltac:(discriminate) eq_refl))).
Defined.

(** ** The scenarios of the specification *)

(** Scenario A: no other entry; the entry gets index 1 and the lock at
    once. *)
Example scenario_A :
  result (acquire (store [] 1 [] [] []) "clientA" "10")
  = Returned (httpWrite "1").
Proof. reflexivity. Qed.

(** Scenario B: entry 1 is held by another client; the new entry 2
    watches entry 1, and has the lock once entry 1 is gone. *)
Example scenario_B :
  result (acquire (store [entry 1 "other"] 2 [released] [] []) "clientB" "10")
  = Returned (httpWrite "2")
  /\ map Key (entries (final (acquire (store [entry 1 "other"] 2 [released] [] [])
                                      "clientB" "10")))
     = ["/_etcd/mod/lock/db/2"]%string.
Proof. split; reflexivity. Qed.

(** Scenario C: as B, but the connection closes during the watch; the
    value on the close channel is the one the watch was stopped with, the
    loop's error is reported and entry 2 is deleted. *)
Example scenario_C :
  result (acquire (store [entry 1 "other"] 2 [] [true] [false]) "clientB" "10")
  = Returned (httpError "lock watch closed" StatusInternalServerError)
  /\ map Key (entries (final (acquire (store [entry 1 "other"] 2 [] [true] [false])
                                      "clientB" "10")))
     = ["/_etcd/mod/lock/db/1"]%string.
Proof. split; reflexivity. Qed.

(** The same closed connection on the path of a found entry: the watch
    has no stop signal, the store stays silent and the handler never
    answers. *)
Example reuse_path_stays_blocked :
  result (acquire (store [entry 1 "other"; entry 2 "clientB"] 3 [] [true] [true])
                  "clientB" "10")
  = Blocked.
Proof. reflexivity. Qed.

(** * More properties of the handler *)

(** ** The shapes of the runs *)

Section RunShapes.

Context {sigma : Type}.
Variable h : Env sigma.
Variable prefix : string.

Lemma respond_trace : forall (o : outcome (Z * option error)) (w : sigma) tr,
  trace (respond o w tr) = tr ++ closing o.
Proof.
  intros [[i [e|]]| |] w tr; cbn; rewrite ?app_nil_r; reflexivity.
Qed.

Lemma respond_result : forall (o : outcome (Z * option error)) (w : sigma) tr,
  result (respond o w tr) = answer o.
Proof. intros [[i [e|]]| |] w tr; reflexivity. Qed.

(** A watch without a stop signal is never stopped. *)
Lemma watch_nil_not_stopped : forall fuel keypath index w,
  Forall (fun e => is_stopped e = false)
         (trace (watch h fuel keypath index nilChan w)).
Proof.
  induction fuel as [|fuel IH]; intros keypath index w.
  - constructor.
  - rewrite watch_unfold. unfold bind, Get, call.
    destruct (envGet h keypath true true w) as [[resp|err] w1]; cbn.
    + destruct (PrevIndex (Nodes (RespNode resp)) index =? 0); cbn.
      * now repeat constructor.
      * unfold Watch, stopFires, forwarder, recvClose.
        destruct (watchAnswer h _ _ false w1) as [[[changed|msg]|] w3]; cbn;
          repeat (constructor; [reflexivity|]); try constructor.
        apply IH.
    + now repeat constructor.
Qed.

Lemma createNode_shape : forall fuel keypath value ttl stop w,
  CreateRun keypath value ttl stop
    (trace (createNode h fuel keypath value ttl stop w))
    (result (createNode h fuel keypath value ttl stop w)).
Proof.
  intros fuel keypath value ttl stop w. rewrite createNode_run. cbn zeta.
  destruct (envAddChild h keypath (entryValue value) (Go.uint64 ttl) w)
    as [[resp|err] w1]; [|apply CR_add_failed].
  pose proof (watch_refines h fuel keypath (node_index (RespNode resp)) stop w1)
    as HW.
  destruct (watch h fuel keypath (node_index (RespNode resp)) stop w1)
    as [[[e|]| |] w2 tr]; cbn [result final trace] in *.
  - destruct (pollClose h stop w2) as [b w3] eqn:Hpoll.
    destruct (envDelete h (Key (RespNode resp)) false w3) as [d w4].
    cbn [result final trace]. apply CR_failed; [exact HW|].
    intros ->. cbn in Hpoll. now inversion Hpoll.
  - destruct (envUpdate h _ _ _ w2) as [u w3]. cbn [result final trace].
    now apply CR_acquired.
  - apply (CR_unfinished keypath value ttl stop resp tr Blocked HW). now left.
  - apply (CR_unfinished keypath value ttl stop resp tr OutOfFuel HW). now right.
Qed.

Lemma closing_with_index : forall index o,
  closing (with_index index o) = closing o.
Proof. intros index [e| |]; reflexivity. Qed.

Lemma len_blank : (0 <? Go.len "") = false.
Proof. reflexivity. Qed.

(** The lookup either finds an entry with a positive index or misses. *)
Lemma findExistingNode_shape : forall keypath value w,
  let f := findExistingNode h keypath value w in
  (exists resp node,
      value <> ""%string
      /\ FindByValue (Nodes (RespNode resp)) value = Some node
      /\ 0 < node_index node
      /\ result f = Returned (node_index node)
      /\ trace f = [EGet keypath true true (inl resp)])
  \/ (exists index,
        index <= 0 /\ result f = Returned index
        /\ LookupMiss keypath value (trace f)).
Proof.
  intros keypath value w f. subst f. rewrite findExistingNode_run.
  destruct value as [|c value].
  - right. exists 0. cbn. repeat split; [lia|now constructor].
  - rewrite len_pos by discriminate.
    destruct (envGet h keypath true true w) as [[resp|err] w1];
      cbn [result trace].
    + destruct (FindByValue (Nodes (RespNode resp)) (String c value))
        as [node|] eqn:Hfind.
      * destruct (Z.lt_ge_cases 0 (node_index node)) as [Hpos|Hle].
        { left. exists resp, node. repeat split; auto. discriminate. }
        { right. exists (node_index node). repeat split; auto.
          eapply LM_unnumbered; eauto. discriminate. }
      * right. exists 0. repeat split; [lia|].
        apply LM_absent; [discriminate|exact Hfind].
    + right. exists 0. repeat split; [lia|]. apply LM_failed. discriminate.
Qed.

Lemma handler_shape : forall fuel req w,
  HandlerRun prefix req
    (trace (acquireHandler h prefix fuel req w))
    (result (acquireHandler h prefix fuel req w)).
Proof.
  intros fuel req w.
  destruct (snd (parseTimeout (form_timeout req))) eqn:Ht.
  2:{ rewrite (acquireHandler_bad_timeout h prefix fuel req w Ht).
      now apply HR_bad_timeout. }
  destruct (Go.Atoi (form_ttl req)) as [ttl [|]] eqn:Hl.
  2:{ rewrite (acquireHandler_bad_ttl h prefix fuel req w Ht)
        by (rewrite Hl; reflexivity).
      apply HR_bad_ttl; [exact Ht|rewrite Hl; reflexivity]. }
  pose proof (findExistingNode_shape (Go.Join prefix (var_key req))
                (form_value req) (envSyncCluster h w)) as Hf.
  cbn zeta in Hf.
  destruct (findExistingNode h (Go.Join prefix (var_key req)) (form_value req)
              (envSyncCluster h w)) as [rf wf trf] eqn:Hfind.
  cbn [result trace] in Hf.
  destruct Hf as [(resp & node & Hv & Hfound & Hpos & -> & ->)
                 |(index & Hle & -> & Hmiss)].
  - rewrite (acquireHandler_reuse h prefix fuel req w ttl _ _ _ Ht Hl Hfind Hpos).
    rewrite respond_trace, respond_result.
    pose proof (watch_refines h fuel (Go.Join prefix (var_key req))
                  (node_index node) nilChan wf) as HW.
    pose proof (watch_nil_not_stopped fuel (Go.Join prefix (var_key req))
                  (node_index node) wf) as HN.
    destruct (watch h fuel (Go.Join prefix (var_key req)) (node_index node)
                nilChan wf) as [ow ww trw].
    cbn [result final trace] in *.
    fold (with_index (node_index node) ow).
    rewrite closing_with_index. cbn [app].
    apply HR_reuse; auto. rewrite Hl. reflexivity.
  - rewrite (acquireHandler_create h prefix fuel req w ttl _ _ _ Ht Hl Hfind Hle).
    rewrite respond_trace, respond_result.
    pose proof (createNode_shape fuel (Go.Join prefix (var_key req))
                  (form_value req) ttl closeNotify wf) as HC.
    destruct (createNode h fuel (Go.Join prefix (var_key req)) (form_value req)
                ttl closeNotify wf) as [oc wc trc].
    cbn [result final trace] in *.
    replace ((ESyncCluster :: trf ++ trc) ++ closing oc)
      with (ESyncCluster :: trf ++ trc ++ closing oc)
      by (cbn; now rewrite app_assoc).
    eapply HR_create; eauto.
Qed.

End RunShapes.

(** ** What the Watch Loop can come to *)

Lemma WatchLoop_error : forall keypath index stop tr e,
  WatchLoop keypath index stop tr (Returned (Some e)) ->
  e = errorString "lock watch closed"
  \/ (exists err, e = errorString ("lock watch lookup error: " ++ Error err)%string)
  \/ (exists msg, e = errorString ("lock watch error:" ++ msg)%string).
Proof.
  intros keypath index stop tr e H.
  remember (Returned (Some e)) as out eqn:Hout.
  induction H; try discriminate; auto.
  - inversion Hout. now left.
  - inversion Hout. right. left. now exists err.
  - inversion Hout. right. right. now exists msg.
Qed.

Lemma WatchLoop_not_stopped : forall keypath index stop tr out,
  WatchLoop keypath index stop tr out ->
  Forall (fun e => is_stopped e = false) tr ->
  out <> Returned (Some (errorString "lock watch closed")).
Proof.
  intros keypath index stop tr out H.
  induction H; intros HN; try discriminate.
  - apply IHWatchLoop. inversion HN as [|? ? _ HN1]; subst.
    now inversion HN1.
  - inversion HN as [|? ? _ HN1]; subst. inversion HN1 as [|? ? Hs _]; subst.
    discriminate Hs.
Qed.

Lemma loop_call_In : forall stop tr e,
  Forall (loop_call stop) tr -> In e tr ->
  match e with
  | EGet _ _ _ _ => True
  | EWatch _ _ _ s _ => s = stop
  | _ => False
  end.
Proof.
  intros stop tr e HF Hin. rewrite Forall_forall in HF.
  apply (HF e Hin).
Qed.

Lemma LookupMiss_In : forall keypath value tr e,
  LookupMiss keypath value tr -> In e tr ->
  exists r, e = EGet keypath true true r.
Proof.
  intros keypath value tr e HM Hin.
  destruct HM; cbn in Hin; try contradiction;
    destruct Hin as [<-|[]]; eexists; reflexivity.
Qed.

Lemma Forall_inner : forall (A : Type) (P : A -> Prop) a l1 b l2,
  Forall P (a :: l1 ++ b :: l2) -> P b.
Proof.
  intros A P a l1 b l2 H. rewrite Forall_forall in H. apply H.
  right. apply in_or_app. right. now left.
Qed.

(** ** Runs of the handler, path by path *)

Section HandlerPaths.

Context {sigma : Type}.
Variable h : Env sigma.
Variable prefix : string.

Ltac by_shape fuel req w :=
  generalize (handler_shape h prefix fuel req w);
  generalize (trace (acquireHandler h prefix fuel req w))
             (result (acquireHandler h prefix fuel req w));
  intros tr out Hshape.

Ltac shape_cases H :=
  destruct H as [Ht|Ht Hl|resp0 node0 trw outw Ht Hl Hv Hfound Hpos HW HN
                |ttl' tr1 trc outc Ht Hl HM HC];
  [ | | destruct outw as [[e0|]| |]
      | destruct HC as [err0|resp0 trw u0 HW|resp0 trw e0 b0 d0 HW Hb
                       |resp0 trw out' HW [Hout|Hout]];
        try (rewrite Hout in *; clear Hout) ].

(** X1.  The timeout has no effect: once it has passed validation (it
    is empty or parses as an integer), the handler does and answers the
    same whatever its value. *)
Theorem timeout_has_no_effect : forall fuel key value timeout1 timeout2 ttl w,
  snd (parseTimeout timeout1) = true ->
  snd (parseTimeout timeout2) = true ->
  acquireHandler h prefix fuel (mkRequest key value timeout1 ttl) w
  = acquireHandler h prefix fuel (mkRequest key value timeout2 ttl) w.
Proof.
  intros fuel key value timeout1 timeout2 ttl w H1 H2.
  unfold acquireHandler. cbn [form_timeout form_ttl form_value var_key].
  destruct (parseTimeout timeout1) as [t1 ok1].
  destruct (parseTimeout timeout2) as [t2 ok2].
  cbn in H1, H2. subst ok1 ok2. reflexivity.
Qed.

(** X2.  A blank value: the handler makes no lookup; its first call of
    the store creates an entry with the value "-". *)
Theorem blank_value_creates_dash_entry : forall fuel req w ttl,
  snd (parseTimeout (form_timeout req)) = true ->
  Go.Atoi (form_ttl req) = (ttl, true) ->
  form_value req = ""%string ->
  exists r tr,
    trace (acquireHandler h prefix fuel req w)
    = ESyncCluster
      :: EAddChild (Go.Join prefix (var_key req)) "-" (Go.uint64 ttl) r :: tr.
Proof.
  intros fuel req w ttl Ht0 Hl0 Hv0. by_shape fuel req w.
  shape_cases Hshape; try congruence.
  all: rewrite Hl0 in Hl; try discriminate Hl; inversion Hl; subst ttl'.
  all: destruct HM as [Hblank|? Hblank|? Hblank|? ? Hblank]; try congruence.
  all: rewrite Hv0; cbn; eexists _, _; reflexivity.
Qed.

(** Membership in a trace, part by part. *)
Ltac split_in H :=
  repeat first
    [ apply in_app_or in H
    | progress cbn [In closing with_index] in H
    | destruct H as [H|H]
    | contradiction ].

Ltac absurd_in :=
  match goal with
  | HW : WatchLoop _ _ ?stop ?trw _, Hin : In ?e ?trw |- _ =>
      let Hc := fresh in
      pose proof (loop_call_In stop trw e (WatchLoop_calls _ _ _ _ _ HW) Hin) as Hc;
      cbn in Hc; solve [contradiction | discriminate]
  | HM : LookupMiss _ _ ?tr1, Hin : In ?e ?tr1 |- _ =>
      let r := fresh in let Hc := fresh in
      destruct (LookupMiss_In _ _ _ _ HM Hin) as [r Hc]; discriminate Hc
  end.

Ltac crunch H := split_in H; try discriminate H; try absurd_in.

(** X3.  When [AddChild] fails the handler reports "acquire lock index
    error: " followed by the error of the client, with status 500: the
    failed call is its last call of the store, after the cluster sync
    and at most the lookup, and before [close(stopChan)]; no keep-alive
    is started and nothing is watched, updated or deleted. *)
Theorem add_child_failure_reported : forall fuel req w key value ttl err,
  In (EAddChild key value ttl (inr err))
     (trace (acquireHandler h prefix fuel req w)) ->
  result (acquireHandler h prefix fuel req w)
  = Returned (httpError ("acquire lock index error: " ++ Error err)%string
                        StatusInternalServerError)
  /\ exists tr,
       trace (acquireHandler h prefix fuel req w)
       = tr ++ [EAddChild key value ttl (inr err); ECloseStopChan]
       /\ Forall (fun e => e = ESyncCluster
                           \/ exists r, e = EGet (Go.Join prefix (var_key req))
                                                 true true r) tr.
Proof.
  intros fuel req w key value ttl err. by_shape fuel req w. intros Hin.
  shape_cases Hshape; crunch Hin.
  inversion Hin; subst. split; [reflexivity|].
  exists (ESyncCluster :: tr1). split.
  - norm_trace. reflexivity.
  - constructor; [now left|]. apply Forall_forall. intros e He.
    right. eapply LookupMiss_In; eauto.
Qed.

(** X4.  A call that creates no entry only reads: besides the cluster
    sync and [close(stopChan)] it makes lookups and watches without a
    stop signal; it starts no keep-alive and never updates or deletes
    anything, so the ttl of an entry it found is not refreshed. *)
Theorem no_entry_created_only_reads : forall fuel req w,
  Forall (fun e => is_AddChild e = false)
         (trace (acquireHandler h prefix fuel req w)) ->
  Forall (fun e => e = ESyncCluster \/ e = ECloseStopChan \/ loop_call nilChan e)
         (trace (acquireHandler h prefix fuel req w)).
Proof.
  intros fuel req w. by_shape fuel req w. intros Hno.
  shape_cases Hshape; cbn [app closing with_index] in *;
    try (apply Forall_inner in Hno; discriminate Hno).
  1,2: repeat constructor; now left.
  all: constructor; [now left|]; constructor; [right; right; exact I|].
  all: apply Forall_app; split;
    [ eapply Forall_impl; [|eapply WatchLoop_calls; eauto]; cbn; auto
    | repeat constructor; right; now left ].
Qed.

(** X5.  The handler writes to its own entry only: the key of every
    keep-alive it starts, of every [Update] and of every [Delete] it
    makes is the key that its own successful [AddChild] on the lock's
    path returned, and no [Delete] is recursive. *)
Theorem writes_only_to_own_entry : forall fuel req w e,
  In e (trace (acquireHandler h prefix fuel req w)) ->
  match e with
  | EGoKeepAlive key _ _ | EUpdate key _ _ _ =>
      created_by (Go.Join prefix (var_key req))
                 (trace (acquireHandler h prefix fuel req w)) key
  | EDelete key recursive _ =>
      recursive = false
      /\ created_by (Go.Join prefix (var_key req))
                    (trace (acquireHandler h prefix fuel req w)) key
  | _ => True
  end.
Proof.
  intros fuel req w e. by_shape fuel req w. intros Hin.
  assert (Hown : forall l1 value ttl resp l2 l3,
             created_by (Go.Join prefix (var_key req))
               (ESyncCluster
                :: l1 ++ (EAddChild (Go.Join prefix (var_key req)) value ttl (inl resp)
                          :: l2) ++ l3)
               (Key (RespNode resp))).
  { intros l1 value ttl resp l2 l3. exists value, ttl, resp.
    split; [|reflexivity]. right. apply in_or_app. right. now left. }
  shape_cases Hshape; crunch Hin; try (subst e; exact I);
    try (match goal with
         | HW : WatchLoop _ _ ?stop ?trw _, Hin : In ?e ?trw |- _ =>
             pose proof (loop_call_In stop trw e (WatchLoop_calls _ _ _ _ _ HW) Hin);
             destruct e; try contradiction; exact I
         | HM : LookupMiss _ _ ?tr1, Hin : In ?e ?tr1 |- _ =>
             destruct (LookupMiss_In _ _ _ _ HM Hin) as [? ->]; exact I
         end).
  all: subst e; try split; try reflexivity; apply Hown.
Qed.

(** X7.  [close(stopChan)] on every return: when the request has passed
    validation and the handler returns, on success or on failure,
    [close(stopChan)] is its last act and happens once, so a keep-alive
    it has started is told to stop; a rejected request, and a handler
    that has not returned, close nothing. *)
Theorem stop_chan_closed_on_return : forall fuel req w,
  match result (acquireHandler h prefix fuel req w) with
  | Returned _ =>
      if snd (parseTimeout (form_timeout req)) && snd (Go.Atoi (form_ttl req))
      then exists tr,
             trace (acquireHandler h prefix fuel req w) = tr ++ [ECloseStopChan]
             /\ Forall (fun e => is_close e = false) tr
      else Forall (fun e => is_close e = false)
                  (trace (acquireHandler h prefix fuel req w))
  | _ => Forall (fun e => is_close e = false)
                (trace (acquireHandler h prefix fuel req w))
  end.
Proof.
  intros fuel req w. by_shape fuel req w.
  assert (Hloop : forall kp i stop trw o,
             WatchLoop kp i stop trw o -> Forall (fun e => is_close e = false) trw).
  { intros kp i stop trw o HW. eapply Forall_impl; [|eapply WatchLoop_calls; eauto].
    intros []; cbn; intros; try contradiction; reflexivity. }
  assert (Hmiss : forall kp v tr1,
             LookupMiss kp v tr1 -> Forall (fun e => is_close e = false) tr1).
  { intros kp v tr1 HM. destruct HM; repeat constructor. }
  shape_cases Hshape; cbn [answer with_index closing];
    rewrite ?Ht, ?Hl; cbn [snd andb]; rewrite ?app_nil_r.
  1,2: repeat constructor.
  all: try (rewrite (app_assoc tr1)).
  all: try (rewrite !app_comm_cons; eexists; split; [reflexivity|]).
  all: repeat first [ apply Forall_cons; [reflexivity|]
                    | apply Forall_app; split
                    | apply Forall_nil
                    | solve [eauto] ].
Qed.

(** X8.  The failures the handler reports: every error response has
    status 500, and its message is one of seven: the two validation
    messages, the error of [AddChild] after "acquire lock index error: ",
    the error of a lookup after "lock watch lookup error: ", "lock watch
    closed", the error of a watch after "lock watch error:", and
    "acquire lock error: user interrupted". *)
Theorem error_responses : forall fuel req w msg code,
  result (acquireHandler h prefix fuel req w) = Returned (httpError msg code) ->
  code = StatusInternalServerError
  /\ (msg = ("invalid timeout: " ++ form_timeout req)%string
      \/ msg = ("invalid ttl: " ++ form_ttl req)%string
      \/ (exists err, msg = ("acquire lock index error: " ++ Error err)%string)
      \/ (exists err, msg = ("lock watch lookup error: " ++ Error err)%string)
      \/ msg = "lock watch closed"%string
      \/ (exists m, msg = ("lock watch error:" ++ m)%string)
      \/ msg = "acquire lock error: user interrupted"%string).
Proof.
  intros fuel req w msg code. by_shape fuel req w. intros Hres.
  shape_cases Hshape; cbn in Hres; try discriminate Hres.
  - inversion Hres. split; auto.
  - inversion Hres. split; auto.
  - inversion Hres. split; [reflexivity|].
    destruct (WatchLoop_error _ _ _ _ _ HW) as [->|[[err ->]|[m ->]]]; cbn; eauto 10.
  - inversion Hres. split; [reflexivity|]. right. right. left. now exists err0.
  - inversion Hres. split; [reflexivity|]. destruct b0; cbn; [auto 10|].
    destruct (WatchLoop_error _ _ _ _ _ HW) as [->|[[err ->]|[m ->]]]; cbn; eauto 10.
Qed.

(** X9.  Success only after a snapshot without predecessor: when the
    handler answers with a body, the body is the decimal form of an
    index, the last lookup of the call returned a snapshot in which that
    index has no preceding index, and nothing follows that lookup but the
    final [Update] of the creation path and [close(stopChan)]. *)
Theorem success_only_when_first : forall fuel req w body,
  result (acquireHandler h prefix fuel req w) = Returned (httpWrite body) ->
  exists index resp tr tail,
    body = Go.Itoa index
    /\ trace (acquireHandler h prefix fuel req w)
       = tr ++ EGet (Go.Join prefix (var_key req)) true true (inl resp) :: tail
    /\ PrevIndex (Nodes (RespNode resp)) index = 0
    /\ (tail = [ECloseStopChan]
        \/ exists key value ttl u, tail = [EUpdate key value ttl u; ECloseStopChan]).
Proof.
  intros fuel req w body. by_shape fuel req w. intros Hres.
  shape_cases Hshape; cbn in Hres; try discriminate Hres.
  - inversion Hres.
    destruct (proj1 (WatchLoop_success _ _ _ _ _ HW) eq_refl)
      as (tr' & resp & -> & Hprev).
    exists (node_index node0), resp,
      (ESyncCluster
       :: EGet (Go.Join prefix (var_key req)) true true (inl resp0) :: tr'),
      [ECloseStopChan].
    repeat split; auto. cbn [closing]. norm_trace. reflexivity.
  - inversion Hres.
    destruct (proj1 (WatchLoop_success _ _ _ _ _ HW) eq_refl)
      as (tr' & resp & -> & Hprev).
    exists (node_index (RespNode resp0)), resp,
      (ESyncCluster
       :: tr1 ++ EAddChild (Go.Join prefix (var_key req))
                   (entryValue (form_value req)) (Go.uint64 ttl') (inl resp0)
          :: EGoKeepAlive (Key (RespNode resp0)) (entryValue (form_value req)) ttl'
          :: tr'),
      [EUpdate (Key (RespNode resp0)) (entryValue (form_value req))
               (Go.uint64 ttl') u0; ECloseStopChan].
    repeat split; eauto 10. cbn [closing]. norm_trace. reflexivity.
Qed.

(** X11.  The keep-alive is started with the entry: a successful
    [AddChild] is on the lock's path, with the value of the request ("-"
    for a blank one) and the ttl converted to [uint64]; the call right
    after it starts the keep-alive for the key it returned, with the same
    value and the ttl as parsed; before it there is only the cluster sync
    and at most the lookup, so no watch precedes the keep-alive. *)
Theorem keep_alive_started_with_the_entry : forall fuel req w key value t resp,
  In (EAddChild key value t (inl resp))
     (trace (acquireHandler h prefix fuel req w)) ->
  exists pre post ttl,
    Go.Atoi (form_ttl req) = (ttl, true)
    /\ key = Go.Join prefix (var_key req)
    /\ value = entryValue (form_value req)
    /\ t = Go.uint64 ttl
    /\ trace (acquireHandler h prefix fuel req w)
       = pre ++ EAddChild key value t (inl resp)
             :: EGoKeepAlive (Key (RespNode resp)) value ttl :: post
    /\ Forall (fun e => e = ESyncCluster
                        \/ exists r, e = EGet (Go.Join prefix (var_key req))
                                              true true r) pre.
Proof.
  intros fuel req w key value t resp. by_shape fuel req w. intros Hin.
  assert (Hpre : forall kp v tr1, LookupMiss kp v tr1 ->
             Forall (fun e => e = ESyncCluster \/ exists r, e = EGet kp true true r)
                    (ESyncCluster :: tr1)).
  { intros kp v tr1 HM. constructor; [now left|].
    apply Forall_forall. intros e He. right. eapply LookupMiss_In; eauto. }
  shape_cases Hshape; crunch Hin.
  all: inversion Hin; subst.
  all: exists (ESyncCluster :: tr1); eexists; exists ttl'.
  all: repeat split; eauto; norm_trace; reflexivity.
Qed.

End HandlerPaths.

(** * Properties of the Go library functions *)

From Stdlib Require DecimalPos.

(** ** [strconv.Atoi] and [strconv.Itoa] *)

Lemma is_digit_val : forall c,
  Go.is_digit c = true -> 0 <= Go.digit_val c <= 9.
Proof.
  intros c Hc. unfold Go.is_digit in Hc. cbv zeta in Hc.
  apply andb_prop in Hc as [H1 H2].
  apply Nat.leb_le in H1. apply Nat.leb_le in H2.
  unfold Go.digit_val. lia.
Qed.

Lemma digits_nonneg : forall s acc n,
  0 <= acc -> Go.digits s acc = Some n -> acc <= n.
Proof.
  induction s as [|c s IH]; intros acc n Hacc H; cbn [Go.digits] in H.
  - inversion H. lia.
  - destruct (Go.is_digit c) eqn:Hc; [|discriminate].
    apply is_digit_val in Hc. apply IH in H; lia.
Qed.

Lemma digits_of_uint_acc : forall d p,
  Go.digits (NilEmpty.string_of_uint d) (Z.pos p)
  = Some (Z.pos (Pos.of_uint_acc d p)).
Proof.
  induction d; intros p; cbn [NilEmpty.string_of_uint Go.digits Pos.of_uint_acc];
    try reflexivity.
  all: match goal with |- (if Go.is_digit ?c then _ else _) = _ =>
         change (Go.is_digit c) with true; cbv iota end.
  all: match goal with
       | |- Go.digits _ (10 * ?a + Go.digit_val ?c)
            = Some (Z.pos (Pos.of_uint_acc _ ?q)) =>
           let v := eval cbv in (Go.digit_val c) in
           change (Go.digit_val c) with v;
           replace (10 * a + v) with (Z.pos q) by lia
       end.
  all: apply IHd.
Qed.

Lemma digits_of_uint : forall d,
  Go.digits (NilEmpty.string_of_uint d) 0 = Some (Z.of_N (Pos.of_uint d)).
Proof.
  induction d; cbn [NilEmpty.string_of_uint Go.digits Pos.of_uint];
    try reflexivity.
  all: match goal with |- (if Go.is_digit ?c then _ else _) = _ =>
         change (Go.is_digit c) with true; cbv iota end.
  all: match goal with |- Go.digits _ (10 * 0 + Go.digit_val ?c) = _ =>
         let v := eval cbv in (10 * 0 + Go.digit_val c) in
         change (10 * 0 + Go.digit_val c) with v end.
  1: exact IHd.
  all: apply digits_of_uint_acc.
Qed.

Lemma digits_to_uint : forall p,
  Go.digits (NilEmpty.string_of_uint (Pos.to_uint p)) 0 = Some (Z.pos p).
Proof.
  intros p. rewrite digits_of_uint, DecimalPos.Unsigned.of_to. reflexivity.
Qed.

Lemma to_uint_not_Nil : forall p, Pos.to_uint p <> Decimal.Nil.
Proof.
  intros p H. pose proof (DecimalPos.Unsigned.of_to p) as E.
  rewrite H in E. discriminate E.
Qed.

(** A string of digits parses to its value when it fits. *)
Lemma Atoi_unsigned : forall c s n,
  Go.digits (String c s) 0 = Some n ->
  Go.Atoi (String c s)
  = if Go.maxInt <? n then (Go.maxInt, false) else (n, true).
Proof.
  intros c s n H.
  assert (Hc : Go.is_digit c = true).
  { cbn [Go.digits] in H. destruct (Go.is_digit c); [reflexivity|discriminate]. }
  unfold Go.Atoi.
  assert (Hsign : match String c s with
                  | String "+"%char r => (false, r)
                  | String "-"%char r => (true, r)
                  | _ => (false, String c s)
                  end = (false, String c s)).
  { destruct c as [[|] [|] [|] [|] [|] [|] [|] [|]]; try reflexivity;
      discriminate Hc. }
  rewrite Hsign. rewrite H. reflexivity.
Qed.

Lemma Atoi_negative : forall c s n,
  Go.digits (String c s) 0 = Some n ->
  Go.Atoi (String "-" (String c s))
  = if - n <? Go.minInt then (Go.minInt, false) else (- n, true).
Proof.
  intros c s n H. unfold Go.Atoi. rewrite H. reflexivity.
Qed.

Lemma string_of_uint_cons : forall d,
  d <> Decimal.Nil -> exists c s, NilEmpty.string_of_uint d = String c s.
Proof. intros [] H; try congruence; eexists _, _; reflexivity. Qed.

Lemma Atoi_Itoa_int : forall n,
  Go.minInt <= n <= Go.maxInt -> Go.Atoi (Go.Itoa n) = (n, true).
Proof.
  intros [|p|p] [Hlo Hhi]; unfold Go.Itoa; cbn [Z.to_int NilZero.string_of_int].
  - reflexivity.
  - pose proof (digits_to_uint p) as Hd. pose proof (to_uint_not_Nil p) as Hn.
    unfold NilZero.string_of_uint.
    destruct (string_of_uint_cons _ Hn) as (c & s & E).
    destruct (Pos.to_uint p) eqn:Ep; try congruence; rewrite E in *;
      rewrite (Atoi_unsigned _ _ _ Hd);
      destruct (Z.ltb_spec Go.maxInt (Z.pos p)); try lia; reflexivity.
  - pose proof (digits_to_uint p) as Hd. pose proof (to_uint_not_Nil p) as Hn.
    unfold NilZero.string_of_uint.
    destruct (string_of_uint_cons _ Hn) as (c & s & E).
    destruct (Pos.to_uint p) eqn:Ep; try congruence; rewrite E in *;
      rewrite (Atoi_negative _ _ _ Hd);
      change (- Z.pos p) with (Z.neg p);
      destruct (Z.ltb_spec (Z.neg p) Go.minInt); try lia; reflexivity.
Qed.

Lemma Atoi_value : forall s,
  Go.minInt <= fst (Go.Atoi s) <= Go.maxInt
  /\ (snd (Go.Atoi s) = false ->
      fst (Go.Atoi s) = 0 \/ fst (Go.Atoi s) = Go.minInt
      \/ fst (Go.Atoi s) = Go.maxInt).
Proof.
  intros s. unfold Go.Atoi.
  assert (Hb : Go.minInt < 0 < Go.maxInt) by (unfold Go.minInt, Go.maxInt; lia).
  destruct (match s with
            | String "+"%char r => (false, r)
            | String "-"%char r => (true, r)
            | _ => (false, s)
            end) as [neg body].
  destruct body as [|c body]; [cbn [fst snd]; split; [lia|auto]|].
  destruct (Go.digits (String c body) 0) as [n|] eqn:Hd;
    [|cbn [fst snd]; split; [lia|auto]].
  apply digits_nonneg in Hd; [|lia].
  destruct neg.
  - destruct (Z.ltb_spec (- n) Go.minInt); cbn [fst snd];
      (split; [lia|intros Hf; try discriminate Hf; auto]).
  - destruct (Z.ltb_spec Go.maxInt n); cbn [fst snd];
      (split; [lia|intros Hf; try discriminate Hf; auto]).
Qed.



(** ** [path.Join] and [path.Base] *)

Lemma append_assoc : forall a b c : string, ((a ++ b) ++ c = a ++ (b ++ c))%string.
Proof. induction a; intros; cbn; [reflexivity|now rewrite IHa]. Qed.

Lemma append_nil_r : forall a : string, (a ++ "")%string = a.
Proof. induction a; cbn; [reflexivity|now rewrite IHa]. Qed.

Lemma la_app : forall a b,
  list_ascii_of_string (a ++ b) = list_ascii_of_string a ++ list_ascii_of_string b.
Proof. induction a; intros; cbn; [reflexivity|now rewrite IHa]. Qed.

Lemma split_app : forall a b cur,
  Go.split (a ++ String "/" b) cur = Go.split a cur ++ Go.split b "".
Proof.
  induction a as [|c a IH]; intros b cur; cbn [append Go.split].
  - reflexivity.
  - destruct (Ascii.eqb c Go.slash); cbn [app]; now rewrite IH.
Qed.

Lemma split_no_slash : forall e cur,
  no_slash e = true -> Go.split e cur = [(cur ++ e)%string].
Proof.
  unfold no_slash. induction e as [|c e IH]; intros cur H; cbn in *.
  - now rewrite append_nil_r.
  - apply andb_prop in H as [Hc He].
    destruct (Ascii.eqb c Go.slash); [discriminate|].
    rewrite IH by exact He. now rewrite append_assoc.
Qed.

Lemma join_snoc : forall k e,
  Go.join (k ++ [e])
  = match k with [] => e | _ => (Go.join k ++ "/" ++ e)%string end.
Proof.
  induction k as [|x k IH]; intros e; [reflexivity|].
  destruct k as [|y k]; [reflexivity|]. specialize (IH e).
  change (Go.join ((x :: y :: k) ++ [e]))
    with (x ++ "/" ++ Go.join ((y :: k) ++ [e]))%string.
  rewrite IH.
  change (Go.join (x :: y :: k)) with (x ++ "/" ++ Go.join (y :: k))%string.
  now rewrite !append_assoc.
Qed.

Lemma plain_parts : forall e,
  plain e = true ->
  e <> ""%string /\ e <> "."%string /\ e <> ".."%string /\ no_slash e = true.
Proof.
  unfold plain. intros e H.
  apply andb_prop in H as [H H4]. apply andb_prop in H as [H H3].
  apply andb_prop in H as [H1 H2].
  apply negb_true_iff in H1, H2, H3. apply String.eqb_neq in H1, H2, H3. auto.
Qed.

Lemma clean_step_plain : forall r st e,
  plain e = true -> Go.clean_step r st e = e :: st.
Proof.
  intros r st e H. apply plain_parts in H as (H1 & H2 & H3 & _).
  apply String.eqb_neq in H1, H2, H3. unfold Go.clean_step.
  now rewrite H1, H2, H3.
Qed.

(** The cleaned path ends in its last element when that is a plain one. *)
Lemma Clean_last : forall p l e,
  Go.split p "" = l ++ [e] -> plain e = true ->
  exists y, Go.Clean p = (y ++ e)%string
            /\ (y = ""%string \/ exists y', y = (y' ++ "/")%string).
Proof.
  intros p l e Hs He. unfold Go.Clean. rewrite Hs, fold_left_app.
  cbn [fold_left]. rewrite clean_step_plain by exact He.
  cbn [List.rev]. rewrite join_snoc.
  set (k := List.rev (fold_left (Go.clean_step (Go.rooted p)) l [])).
  set (pre := if Go.rooted p then "/"%string else ""%string).
  assert (Hy : exists y, (pre ++ match k with [] => e | _ :: _ => Go.join k ++ "/" ++ e end)%string
                         = (y ++ e)%string
                         /\ (y = ""%string \/ exists y', y = (y' ++ "/")%string)).
  { destruct k as [|x k].
    - exists pre. split; [reflexivity|]. subst pre.
      destruct (Go.rooted p); [right; now exists ""%string|now left].
    - exists (pre ++ Go.join (x :: k) ++ "/")%string. split.
      + now rewrite !append_assoc.
      + right. exists (pre ++ Go.join (x :: k))%string. now rewrite append_assoc. }
  destruct Hy as (y & Hy & Hy'). rewrite Hy.
  assert (Hne : String.eqb (y ++ e) "" = false).
  { apply String.eqb_neq. apply plain_parts in He as (H1 & _).
    destruct y; cbn; [exact H1|discriminate]. }
  rewrite Hne. now exists y.
Qed.

Lemma strip_slashes_id : forall c r,
  Ascii.eqb c Go.slash = false -> Go.strip_slashes (c :: r) = c :: r.
Proof. intros c r H. cbn. now rewrite H. Qed.

Lemma until_slash_app : forall l r,
  forallb (fun c => negb (Ascii.eqb c Go.slash)) l = true ->
  (r = [] \/ exists r', r = Go.slash :: r') ->
  Go.until_slash (l ++ r) = l.
Proof.
  induction l as [|c l IH]; intros r Hl Hr; cbn in *.
  - destruct Hr as [->|[r' ->]]; reflexivity.
  - apply andb_prop in Hl as [Hc Hl]. apply negb_true_iff in Hc.
    rewrite Hc. now rewrite IH.
Qed.

Lemma Base_last : forall y e,
  plain e = true ->
  (y = ""%string \/ exists y', y = (y' ++ "/")%string) ->
  Go.Base (y ++ e) = e.
Proof.
  intros y e He Hy. apply plain_parts in He as (H1 & _ & _ & Hns).
  unfold Go.Base.
  assert (Hne : String.eqb (y ++ e) "" = false).
  { apply String.eqb_neq. destruct y; cbn; [exact H1|discriminate]. }
  rewrite Hne, la_app, rev_app_distr.
  unfold no_slash in Hns.
  assert (Hrev : forallb (fun c => negb (Ascii.eqb c Go.slash))
                         (List.rev (list_ascii_of_string e)) = true).
  { rewrite forallb_forall in *. intros c Hc. apply Hns. now apply in_rev. }
  destruct (List.rev (list_ascii_of_string e)) as [|c re] eqn:Ere.
  { apply (f_equal (@List.rev ascii)) in Ere. rewrite rev_involutive in Ere.
    cbn in Ere. apply (f_equal string_of_list_ascii) in Ere.
    rewrite string_of_list_ascii_of_string in Ere. cbn in Ere. congruence. }
  assert (Hc : Ascii.eqb c Go.slash = false).
  { cbn in Hrev. apply andb_prop in Hrev as [Hc _]. now apply negb_true_iff in Hc. }
  rewrite <- app_comm_cons, strip_slashes_id by exact Hc.
  rewrite app_comm_cons, until_slash_app; [|exact Hrev|].
  - rewrite <- Ere, rev_involutive, string_of_list_ascii_of_string.
    apply String.eqb_neq in H1. now rewrite H1.
  - destruct Hy as [->|[y' ->]]; [now left|right].
    rewrite la_app, rev_app_distr. cbn. eexists; reflexivity.
Qed.

Lemma Base_Join_plain : forall a e, plain e = true -> Go.Base (Go.Join a e) = e.
Proof.
  intros a e He. pose proof (plain_parts e He) as (H1 & _ & _ & Hns).
  unfold Go.Join.
  assert (Hsplit : forall p l, Go.split p "" = l ++ [e] -> Go.Base (Go.Clean p) = e).
  { intros p l Hs. destruct (Clean_last p l e Hs He) as (y & -> & Hy).
    now apply Base_last. }
  destruct (String.eqb a "") eqn:Ha; cbn [negb].
  - apply String.eqb_neq in H1. rewrite H1. cbn [negb].
    apply (Hsplit e []). now rewrite split_no_slash.
  - apply (Hsplit _ (Go.split a "")).
    change ("/" ++ e)%string with (String "/" e).
    rewrite split_app. now rewrite (split_no_slash e "").
Qed.

Lemma uint_no_slash : forall d, no_slash (NilEmpty.string_of_uint d) = true.
Proof.
  unfold no_slash. induction d; cbn; auto.
Qed.

Lemma uint_plain : forall d,
  d <> Decimal.Nil -> plain (NilEmpty.string_of_uint d) = true.
Proof.
  intros d Hd. unfold plain.
  destruct d; try congruence; cbn [NilEmpty.string_of_uint];
    (apply andb_true_intro; split; [reflexivity|]);
    unfold no_slash; cbn; apply uint_no_slash.
Qed.

Lemma Itoa_plain : forall n, plain (Go.Itoa n) = true.
Proof.
  intros [|p|p]; unfold Go.Itoa; cbn [Z.to_int NilZero.string_of_int].
  - reflexivity.
  - pose proof (to_uint_not_Nil p) as Hn. unfold NilZero.string_of_uint.
    pose proof (uint_plain _ Hn) as Hp.
    destruct (Pos.to_uint p); try congruence; exact Hp.
  - pose proof (to_uint_not_Nil p) as Hn. unfold NilZero.string_of_uint.
    pose proof (uint_no_slash (Pos.to_uint p)) as Hp.
    destruct (Pos.to_uint p); try congruence;
      unfold plain; (apply andb_true_intro; split; [reflexivity|]);
      unfold no_slash in *; cbn in *; exact Hp.
Qed.

(** X12.  [strconv.Atoi] reads back what [strconv.Itoa] writes: for
    every [int], parsing its decimal form succeeds and gives the
    number, so the index in a response body parses back to the index. *)
Theorem Atoi_Itoa : forall n,
  Go.minInt <= n <= Go.maxInt -> Go.Atoi (Go.Itoa n) = (n, true).
Proof. exact Atoi_Itoa_int. Qed.

(** X13.  The value of [strconv.Atoi] always fits an [int], and when
    the parse fails it is 0 (a syntax error) or the bound the number
    went beyond. *)
Theorem Atoi_in_range : forall s,
  Go.minInt <= fst (Go.Atoi s) <= Go.maxInt
  /\ (snd (Go.Atoi s) = false ->
      fst (Go.Atoi s) = 0 \/ fst (Go.Atoi s) = Go.minInt
      \/ fst (Go.Atoi s) = Go.maxInt).
Proof. exact Atoi_value. Qed.

(** X14.  [path.Base] undoes [path.Join]: joining a plain element (not
    empty, not "." nor "..", without a slash) to any path and taking the
    base gives the element back. *)
Theorem Base_Join : forall a e, plain e = true -> Go.Base (Go.Join a e) = e.
Proof. exact Base_Join_plain. Qed.

(** X15.  The key [watch] watches names the predecessor: for every lock
    path and every [int] index, the base of [Join(keypath, Itoa(index))]
    is the decimal form of the index, and the index read from that key,
    as [createNode] and [findExistingNode] read it, is the index. *)
Theorem watched_key_names_the_predecessor : forall keypath index value mi nodes,
  Go.minInt <= index <= Go.maxInt ->
  Go.Base (Go.Join keypath (Go.Itoa index)) = Go.Itoa index
  /\ node_index (mkNode (Go.Join keypath (Go.Itoa index)) value mi nodes) = index.
Proof.
  intros keypath index value mi nodes Hr.
  pose proof (Base_Join_plain keypath _ (Itoa_plain index)) as Hb.
  split; [exact Hb|]. unfold node_index. cbn [Key].
  now rewrite Hb, Atoi_Itoa_int.
Qed.

(** * The ttl and the interruption *)

Section TtlAndInterruption.

Context {sigma : Type}.
Variable h : Env sigma.
Variable prefix : string.

Ltac by_shape' fuel req w :=
  generalize (handler_shape h prefix fuel req w);
  generalize (trace (acquireHandler h prefix fuel req w))
             (result (acquireHandler h prefix fuel req w));
  intros tr out Hshape.

(** X19.  The ttl the store receives: every [AddChild] and [Update] of
    the handler carries the parsed ttl converted to [uint64], which is
    the ttl itself when it is not negative and the ttl plus 2^64 when it
    is negative, so a negative ttl reaches the store as a number of at
    least 2^63. *)
Theorem ttl_sent_to_the_store : forall fuel req w ttl e,
  Go.Atoi (form_ttl req) = (ttl, true) ->
  In e (trace (acquireHandler h prefix fuel req w)) ->
  match e with
  | EAddChild _ _ t _ | EUpdate _ _ t _ =>
      t = (if ttl <? 0 then ttl + 2 ^ 64 else ttl)
      /\ (ttl < 0 -> 2 ^ 63 <= t < 2 ^ 64)
  | _ => True
  end.
Proof.
  intros fuel req w ttl e Hl0. by_shape' fuel req w. intros Hin.
  assert (Hconv : Go.uint64 ttl = (if ttl <? 0 then ttl + 2 ^ 64 else ttl)
                  /\ (ttl < 0 -> 2 ^ 63 <= Go.uint64 ttl < 2 ^ 64)).
  { pose proof (Atoi_value (form_ttl req)) as [Hr _]. rewrite Hl0 in Hr.
    cbn [fst] in Hr. unfold Go.minInt, Go.maxInt in Hr. unfold Go.uint64.
    destruct (Z.ltb_spec ttl 0) as [Hneg|Hpos].
    - assert (E : ttl mod 2 ^ 64 = ttl + 2 ^ 64).
      { symmetry. apply (Z.mod_unique_pos _ _ (-1)); lia. }
      rewrite E. split; [reflexivity|lia].
    - rewrite Z.mod_small by lia. split; [reflexivity|lia]. }
  destruct Hshape as [Ht|Ht Hl|resp0 node0 trw outw Ht Hl Hv Hfound Hpos HW HN
                     |ttl' tr1 trc outc Ht Hl HM HC].
  - destruct Hin as [<-|[]]. exact I.
  - destruct Hin as [<-|[]]. exact I.
  - cbn [In] in Hin. destruct Hin as [<-|[<-|Hin]]; try exact I.
    apply in_app_or in Hin as [Hin|Hin].
    + pose proof (loop_call_In _ _ _ (WatchLoop_calls _ _ _ _ _ HW) Hin).
      destruct e; try contradiction; exact I.
    + destruct outw; cbn in Hin; try contradiction.
      destruct Hin as [<-|[]]. exact I.
  - rewrite Hl0 in Hl. inversion Hl; subst ttl'.
    cbn [In] in Hin. destruct Hin as [<-|Hin]; [exact I|].
    apply in_app_or in Hin as [Hin|Hin].
    { destruct (LookupMiss_In _ _ _ _ HM Hin) as [r ->]. exact I. }
    apply in_app_or in Hin as [Hin|Hin].
    2:{ destruct outc; cbn in Hin; try contradiction.
        destruct Hin as [<-|[]]. exact I. }
    destruct HC as [err0|resp0 trw u0 HW|resp0 trw e0 b0 d0 HW Hb
                   |resp0 trw out' HW Hout'];
      cbn [In] in Hin.
    + destruct Hin as [<-|[]]. exact Hconv.
    + destruct Hin as [<-|[<-|Hin]]; [exact Hconv|exact I|].
      apply in_app_or in Hin as [Hin|Hin].
      * pose proof (loop_call_In _ _ _ (WatchLoop_calls _ _ _ _ _ HW) Hin).
        destruct e; try contradiction; exact I.
      * destruct Hin as [<-|[]]. exact Hconv.
    + destruct Hin as [<-|[<-|Hin]]; [exact Hconv|exact I|].
      apply in_app_or in Hin as [Hin|Hin].
      * pose proof (loop_call_In _ _ _ (WatchLoop_calls _ _ _ _ _ HW) Hin).
        destruct e; try contradiction; exact I.
      * destruct Hin as [<-|[<-|[]]]; exact I.
    + destruct Hin as [<-|[<-|Hin]]; [exact Hconv|exact I|].
      pose proof (loop_call_In _ _ _ (WatchLoop_calls _ _ _ _ _ HW) Hin).
      destruct e; try contradiction; exact I.
Qed.

(** X20.  No interruption without an entry: a call that has created no
    entry never reports "lock watch closed" nor "acquire lock error:
    user interrupted", whatever happens to the connection. *)
Theorem no_interruption_without_entry : forall fuel req w msg code,
  Forall (fun e => is_AddChild e = false)
         (trace (acquireHandler h prefix fuel req w)) ->
  result (acquireHandler h prefix fuel req w) = Returned (httpError msg code) ->
  msg <> "lock watch closed"%string
  /\ msg <> "acquire lock error: user interrupted"%string.
Proof.
  intros fuel req w msg code. by_shape' fuel req w. intros Hno Hres.
  destruct Hshape as [Ht|Ht Hl|resp0 node0 trw outw Ht Hl Hv Hfound Hpos HW HN
                     |ttl' tr1 trc outc Ht Hl HM HC].
  - inversion Hres. split; discriminate.
  - inversion Hres. split; discriminate.
  - destruct outw as [[e0|]| |]; cbn in Hres; try discriminate Hres.
    inversion Hres; subst msg code.
    pose proof (WatchLoop_not_stopped _ _ _ _ _ HW HN) as Hns.
    destruct (WatchLoop_error _ _ _ _ _ HW) as [->|[[err ->]|[m ->]]].
    + exfalso. now apply Hns.
    + split; discriminate.
    + split; discriminate.
  - exfalso. destruct HC; cbn [app] in Hno;
      apply Forall_inner in Hno; discriminate Hno.
Qed.

End TtlAndInterruption.

(** * The further properties on concrete calls *)

(** X1 on a call: no timeout and a timeout of 30 give the same run. *)
Lemma timeout_has_no_effect_witness :
  acquireHandler testEnv lockPrefix 8 (mkRequest "db" "clientA" "" "10")
    (store [entry 1 "other"] 2 [released] [] [])
  = acquireHandler testEnv lockPrefix 8 (mkRequest "db" "clientA" "30" "10")
      (store [entry 1 "other"] 2 [released] [] []).
Proof.
  exact (timeout_has_no_effect testEnv lockPrefix 8 "db" "clientA" "" "30" "10"
           (store [entry 1 "other"] 2 [released] [] []) eq_refl eq_refl).
Defined.

(** X2 on a call without a value. *)
Lemma blank_value_creates_dash_entry_witness :
  exists r tr,
    trace (acquire (store [entry 1 "other"] 2 [] [] []) "" "10")
    = ESyncCluster :: EAddChild "/_etcd/mod/lock/db" "-" 10 r :: tr.
Proof.
  exact (blank_value_creates_dash_entry testEnv lockPrefix 8
           (mkRequest "db" "" "" "10") (store [entry 1 "other"] 2 [] [] [])
           10 eq_refl eq_refl eq_refl).
Defined.

(** X3 on a call whose [AddChild] fails. *)
Lemma add_child_failure_reported_witness :
  result (acquireHandler testEnv lockPrefix 8 (mkRequest "db" "clientA" "" "10")
            (mkTestStore [] 1 [Some "no leader"] [] [] [] [] []))
  = Returned (httpError "acquire lock index error: no leader"
                        StatusInternalServerError)
  /\ exists tr,
       trace (acquireHandler testEnv lockPrefix 8 (mkRequest "db" "clientA" "" "10")
                (mkTestStore [] 1 [Some "no leader"] [] [] [] [] []))
       = tr ++ [EAddChild "/_etcd/mod/lock/db" "clientA" 10
                          (inr (errorString "no leader"));
                ECloseStopChan]
       /\ Forall (fun e => e = ESyncCluster
                           \/ exists r, e = EGet "/_etcd/mod/lock/db" true true r)
                 tr.
Proof.
  exact (add_child_failure_reported testEnv lockPrefix 8
           (mkRequest "db" "clientA" "" "10")
           (mkTestStore [] 1 [Some "no leader"] [] [] [] [] [])
           "/_etcd/mod/lock/db" "clientA" 10 (errorString "no leader")
           (or_intror (or_intror (or_introl eq_refl)))).
Defined.

(** X4 on a call that finds its entry. *)
Lemma no_entry_created_only_reads_witness :
  Forall (fun e => e = ESyncCluster \/ e = ECloseStopChan \/ loop_call nilChan e)
    (trace (acquire (store [entry 1 "other"; entry 2 "clientB"] 3 [released] [] [])
                    "clientB" "10")).
Proof.
  apply (no_entry_created_only_reads testEnv lockPrefix 8
           (mkRequest "db" "clientB" "" "10")
           (store [entry 1 "other"; entry 2 "clientB"] 3 [released] [] [])).
  vm_compute. repeat constructor.
Defined.

(** X5 on the keep-alive of scenario A. *)
Lemma writes_only_to_own_entry_witness :
  created_by "/_etcd/mod/lock/db"
    (trace (acquire (store [] 1 [] [] []) "clientA" "10"))
    "/_etcd/mod/lock/db/1".
Proof.
  exact (writes_only_to_own_entry testEnv lockPrefix 8
           (mkRequest "db" "clientA" "" "10") (store [] 1 [] [] [])
           (EGoKeepAlive "/_etcd/mod/lock/db/1" "clientA" 10)
           (or_intror (or_intror (or_intror (or_introl eq_refl))))).
Defined.

(** X8 on scenario C. *)
Lemma error_responses_witness :
  StatusInternalServerError = StatusInternalServerError
  /\ ("lock watch closed" = ("invalid timeout: " ++ "")
      \/ "lock watch closed" = ("invalid ttl: " ++ "10")
      \/ (exists err, "lock watch closed"
                      = ("acquire lock index error: " ++ Error err))
      \/ (exists err, "lock watch closed"
                      = ("lock watch lookup error: " ++ Error err))
      \/ "lock watch closed" = "lock watch closed"
      \/ (exists m, "lock watch closed" = ("lock watch error:" ++ m))
      \/ "lock watch closed" = "acquire lock error: user interrupted")%string.
Proof.
  exact (error_responses testEnv lockPrefix 8 (mkRequest "db" "clientB" "" "10")
           (store [entry 1 "other"] 2 [] [true] [false])
           "lock watch closed" StatusInternalServerError eq_refl).
Defined.

(** X9 on scenario A. *)
Lemma success_only_when_first_witness :
  exists index resp tr tail,
    "1"%string = Go.Itoa index
    /\ trace (acquireHandler testEnv lockPrefix 8 (mkRequest "db" "clientA" "" "10")
                (store [] 1 [] [] []))
       = tr ++ EGet (Go.Join lockPrefix "db") true true (inl resp) :: tail
    /\ PrevIndex (Nodes (RespNode resp)) index = 0
    /\ (tail = [ECloseStopChan]
        \/ exists key value ttl u, tail = [EUpdate key value ttl u; ECloseStopChan]).
Proof.
  exact (success_only_when_first testEnv lockPrefix 8
           (mkRequest "db" "clientA" "" "10") (store [] 1 [] [] []) "1" eq_refl).
Defined.

(** X11 on scenario A. *)
Lemma keep_alive_started_with_the_entry_witness :
  exists pre post ttl,
    Go.Atoi "10" = (ttl, true)
    /\ "/_etcd/mod/lock/db"%string = Go.Join lockPrefix "db"
    /\ "clientA"%string = entryValue "clientA"
    /\ 10 = Go.uint64 ttl
    /\ trace (acquireHandler testEnv lockPrefix 8 (mkRequest "db" "clientA" "" "10")
                (store [] 1 [] [] []))
       = pre ++ EAddChild "/_etcd/mod/lock/db" "clientA" 10
                  (inl (mkResponse (mkNode "/_etcd/mod/lock/db/1" "clientA" 1 [])))
             :: EGoKeepAlive "/_etcd/mod/lock/db/1" "clientA" ttl :: post
    /\ Forall (fun e => e = ESyncCluster
                        \/ exists r, e = EGet (Go.Join lockPrefix "db") true true r)
              pre.
Proof.
  exact (keep_alive_started_with_the_entry testEnv lockPrefix 8
           (mkRequest "db" "clientA" "" "10") (store [] 1 [] [] [])
           "/_etcd/mod/lock/db" "clientA" 10
           (mkResponse (mkNode "/_etcd/mod/lock/db/1" "clientA" 1 []))
           (or_intror (or_intror (or_introl eq_refl)))).
Defined.

(** X12 on 42 and on the least [int]. *)
Lemma Atoi_Itoa_witness :
  Go.Atoi (Go.Itoa 42) = (42, true)
  /\ Go.Atoi (Go.Itoa (-9223372036854775808)) = (-9223372036854775808, true).
Proof.
  split.
  - apply (Atoi_Itoa 42). unfold Go.minInt, Go.maxInt. lia.
  - apply (Atoi_Itoa (-9223372036854775808)). unfold Go.minInt, Go.maxInt. lia.
Defined.

(** X13 on a number beyond the largest [int]. *)
Lemma Atoi_in_range_witness :
  (Go.minInt <= fst (Go.Atoi "9223372036854775808") <= Go.maxInt)
  /\ (fst (Go.Atoi "9223372036854775808") = 0
      \/ fst (Go.Atoi "9223372036854775808") = Go.minInt
      \/ fst (Go.Atoi "9223372036854775808") = Go.maxInt).
Proof.
  split.
  - exact (proj1 (Atoi_in_range "9223372036854775808")).
  - exact (proj2 (Atoi_in_range "9223372036854775808") eq_refl).
Defined.

(** X14 on the key of an entry. *)
Lemma Base_Join_witness :
  Go.Base (Go.Join "/_etcd/mod/lock//db/" "7") = "7"%string.
Proof.
  exact (Base_Join "/_etcd/mod/lock//db/" "7" eq_refl).
Defined.

(** X15 on the predecessor 7 of a lock. *)
Lemma watched_key_names_the_predecessor_witness :
  Go.Base (Go.Join "/_etcd/mod/lock/db" (Go.Itoa 7)) = Go.Itoa 7
  /\ node_index (mkNode (Go.Join "/_etcd/mod/lock/db" (Go.Itoa 7)) "other" 7 []) = 7.
Proof.
  apply (watched_key_names_the_predecessor "/_etcd/mod/lock/db" 7 "other" 7 []).
  unfold Go.minInt, Go.maxInt. lia.
Defined.

(** X19 on a call with the ttl -1. *)
Lemma ttl_sent_to_the_store_witness :
  18446744073709551615 = (if -1 <? 0 then -1 + 2 ^ 64 else -1)
  /\ 2 ^ 63 <= 18446744073709551615 < 2 ^ 64.
Proof.
  pose proof (ttl_sent_to_the_store testEnv lockPrefix 8
                (mkRequest "db" "clientA" "" "-1") (store [] 1 [] [] []) (-1)
                (EAddChild "/_etcd/mod/lock/db" "clientA" 18446744073709551615
                   (inl (mkResponse (mkNode "/_etcd/mod/lock/db/1" "clientA" 1 []))))
                eq_refl (or_intror (or_intror (or_introl eq_refl))))
    as [Heq Hbig].
  split; [exact Heq|exact (Hbig eq_refl)].
Defined.

(** X20 on a call that finds its entry and whose watch fails. *)
Lemma no_interruption_without_entry_witness :
  "lock watch error:EOF"%string <> "lock watch closed"%string
  /\ "lock watch error:EOF"%string <> "acquire lock error: user interrupted"%string.
Proof.
  apply (no_interruption_without_entry testEnv lockPrefix 8
           (mkRequest "db" "clientB" "" "10")
           (store [entry 1 "other"; entry 2 "clientB"] 3 [failing "EOF"] [true] [true])
           "lock watch error:EOF" StatusInternalServerError).
  - vm_compute. repeat constructor.
  - reflexivity.
Defined.


(** * Cancellation by the connection *)

Section Cancellation.

Context {sigma : Type}.
Variable h : Env sigma.
Variable prefix : string.

(** The cases of a membership in a trace. *)
Ltac in_cases H :=
  repeat match type of H with
         | In _ (_ ++ _) => apply in_app_or in H as [H|H]
         | In _ (_ :: _) => apply in_inv in H as [H|H]
         | In _ [] => destruct H
         end.




(** [watch] returns "lock watch closed" in the state in which the close
    channel has just delivered to it. *)
Lemma watch_closed_state : forall fuel keypath index w,
  result (watch h fuel keypath index closeNotify w)
  = Returned (Some (errorString "lock watch closed")) ->
  exists w',
    closeBeforeAnswer h w'
    = (true, final (watch h fuel keypath index closeNotify w)).
Proof.
  induction fuel as [|fuel IH]; intros keypath index w H; [discriminate H|].
  rewrite watch_unfold in *. unfold bind, Get, call in *.
  destruct (envGet h keypath true true w) as [[resp|err] w1];
    cbn [result final trace] in *.
  2:{ exfalso. inversion H. }
  destruct (PrevIndex (Nodes (RespNode resp)) index =? 0);
    cbn [result final trace] in *; [discriminate H|].
  unfold Watch, stopFires, forwarder, recvClose in *.
  destruct (closeBeforeAnswer h w1) as [[|] w2] eqn:Ec;
    cbn [result final trace] in *.
  { exists w1. exact Ec. }
  destruct (watchAnswer h _ _ false w2) as [[[changed|msg]|] w3] eqn:Ea;
    cbn [result final trace] in *.
  - apply IH. exact H.
  - exfalso. inversion H.
  - discriminate H.
Qed.

Lemma found_no_stopped_watch : forall keypath value w key waitIndex,
  ~ In (EWatch key waitIndex false closeNotify watchStopped)
       (trace (findExistingNode h keypath value w)).
Proof.
  intros keypath value w key waitIndex Hin.
  pose proof (loop_call_In nilChan _ _
                (findExistingNode_trace_loop h keypath value w nilChan) Hin) as H.
  discriminate H.
Qed.

(** A watch stopped by the close channel on the path that creates an
    entry: it is the last call of the Watch Loop, which returns "lock
    watch closed"; the handler then polls the close channel, deletes
    the entry, closes [stopChan] and reports the failure. *)
Lemma stopped_on_creation : forall fuel req w ttl index w1 tr1 key waitIndex,
  snd (parseTimeout (form_timeout req)) = true ->
  Go.Atoi (form_ttl req) = (ttl, true) ->
  let keypath := Go.Join prefix (var_key req) in
  let value := entryValue (form_value req) in
  findExistingNode h keypath (form_value req) (envSyncCluster h w)
  = mkRun (Returned index) w1 tr1 ->
  index <= 0 ->
  let run := acquireHandler h prefix fuel req w in
  In (EWatch key waitIndex false closeNotify watchStopped) (trace run) ->
  exists resp w2 pre d,
    envAddChild h keypath value (Go.uint64 ttl) w1 = (inl resp, w2)
    /\ let loop := watch h fuel keypath (node_index (RespNode resp)) closeNotify w2 in
       let b := fst (closeReady h (final loop)) in
       result loop = Returned (Some (errorString "lock watch closed"))
       /\ trace run
          = (ESyncCluster :: tr1
             ++ EAddChild keypath value (Go.uint64 ttl) (inl resp)
             :: EGoKeepAlive (Key (RespNode resp)) value ttl :: pre)
            ++ [EWatch key waitIndex false closeNotify watchStopped;
                ESelectClose b; EDelete (Key (RespNode resp)) false d;
                ECloseStopChan]
       /\ result run
          = Returned (httpError
                        (if b then "acquire lock error: user interrupted"%string
                         else "lock watch closed"%string)
                        StatusInternalServerError).
Proof.
  intros fuel req w ttl index w1 tr1 key waitIndex Ht Hl keypath value Hfind
    Hidx run Hin.
  assert (Htr1 : ~ In (EWatch key waitIndex false closeNotify watchStopped) tr1).
  { pose proof (found_no_stopped_watch keypath (form_value req)
                  (envSyncCluster h w) key waitIndex) as H.
    now rewrite Hfind in H. }
  subst run keypath value. cbv zeta.
  rewrite (acquireHandler_create h prefix fuel req w ttl index w1 tr1
             Ht Hl Hfind Hidx) in *.
  rewrite respond_trace in Hin. rewrite respond_trace, respond_result.
  rewrite createNode_run in *. cbn zeta in *.
  destruct (envAddChild h _ _ (Go.uint64 ttl) w1) as [[resp|err] w2].
  2:{ exfalso. cbn [result final trace closing] in Hin.
      in_cases Hin; try discriminate Hin. now apply Htr1. }
  exists resp, w2.
  pose proof (watch_refines h fuel (Go.Join prefix (var_key req))
                (node_index (RespNode resp)) closeNotify w2) as HW.
  destruct (watch h fuel (Go.Join prefix (var_key req))
              (node_index (RespNode resp)) closeNotify w2)
    as [out w3 tr] eqn:Eloop.
  cbn [result final trace] in *.
  assert (Hloop : In (EWatch key waitIndex false closeNotify watchStopped) tr).
  { destruct out as [[e|]| |]; cbn [result final trace] in Hin.
    - unfold pollClose in Hin.
      destruct (closeReady h w3) as [b w4].
      destruct (envDelete h _ false w4) as [d w5].
      cbn [result final trace closing] in Hin.
      in_cases Hin; try discriminate Hin; try (now apply Htr1 in Hin).
      exact Hin.
    - destruct (envUpdate h _ _ _ w3) as [u w4].
      cbn [result final trace closing] in Hin.
      in_cases Hin; try discriminate Hin; try (now apply Htr1 in Hin).
      exact Hin.
    - cbn [result final trace closing] in Hin.
      in_cases Hin; try discriminate Hin; try (now apply Htr1 in Hin).
      exact Hin.
    - cbn [result final trace closing] in Hin.
      in_cases Hin; try discriminate Hin; try (now apply Htr1 in Hin).
      exact Hin. }
  apply in_split in Hloop as (pre & post & Htr).
  destruct (WatchLoop_failure_last _ _ _ _ _ HW pre _ post "lock watch closed"
              Htr eq_refl) as [-> ->].
  subst tr. unfold pollClose. cbn [result final trace].
  destruct (closeReady h w3) as [b w4].
  destruct (envDelete h (Key (RespNode resp)) false w4) as [d w5].
  exists pre, d. split; [reflexivity|]. cbn [fst result final trace closing answer].
  split; [reflexivity|]. split.
  - norm_trace. reflexivity.
  - destruct b; reflexivity.
Qed.


(** X21.  The value of the close channel is spent on the watch: when
    the channel of the connection carries one value, a call whose watch
    was stopped by it finds nothing to receive at the check after the
    Watch Loop, so it answers "lock watch closed" and never "acquire
    lock error: user interrupted"; it still deletes its entry and
    closes [stopChan]. *)
Theorem stopped_watch_reported_as_closed : forall fuel req w key waitIndex,
  one_value h ->
  In (EWatch key waitIndex false closeNotify watchStopped)
     (trace (acquireHandler h prefix fuel req w)) ->
  result (acquireHandler h prefix fuel req w)
  = Returned (httpError "lock watch closed" StatusInternalServerError)
  /\ exists tr k d,
       trace (acquireHandler h prefix fuel req w)
       = tr ++ [EWatch key waitIndex false closeNotify watchStopped;
                ESelectClose false; EDelete k false d; ECloseStopChan].
Proof.
  intros fuel req w key waitIndex Hone Hin.
  destruct (snd (parseTimeout (form_timeout req))) eqn:Ht.
  2:{ rewrite (acquireHandler_bad_timeout h prefix fuel req w Ht) in Hin.
      cbn in Hin. destruct Hin as [Hin|[]]; discriminate Hin. }
  destruct (Go.Atoi (form_ttl req)) as [ttl [|]] eqn:Hl.
  2:{ rewrite (acquireHandler_bad_ttl h prefix fuel req w Ht) in Hin
        by (rewrite Hl; reflexivity).
      cbn in Hin. destruct Hin as [Hin|[]]; discriminate Hin. }
  destruct (findExistingNode_returns h (Go.Join prefix (var_key req))
              (form_value req) (envSyncCluster h w)) as [index Hfind].
  pose proof (found_no_stopped_watch (Go.Join prefix (var_key req))
                (form_value req) (envSyncCluster h w) key waitIndex) as Htr1.
  destruct (Z.lt_ge_cases 0 index) as [Hpos|Hle].
  - exfalso.
    rewrite (acquireHandler_reuse h prefix fuel req w ttl _ _ _ Ht Hl Hfind Hpos)
      in Hin.
    rewrite respond_trace in Hin.
    apply in_app_or in Hin as [Hin|Hin].
    + cbn in Hin. destruct Hin as [Hin|Hin]; [discriminate Hin|].
      apply in_app_or in Hin as [Hin|Hin]; [now apply Htr1|].
      pose proof (loop_call_In nilChan _ _
                    (watch_calls h fuel _ index nilChan _) Hin) as H.
      discriminate H.
    + destruct (result (watch h fuel _ index nilChan _)) as [[e|]| |];
        cbn in Hin; try contradiction;
        destruct Hin as [Hin|[]]; discriminate Hin.
  - destruct (stopped_on_creation fuel req w ttl index _ _ key waitIndex
                Ht Hl Hfind Hle Hin)
      as (resp & w2 & pre & d & _ & Hres & Htr & Hans).
    destruct (watch_closed_state fuel _ _ w2 Hres) as [w' Hw'].
    rewrite (Hone w' _ Hw') in Htr, Hans.
    split; [exact Hans|]. eexists _, _, d. exact Htr.
Qed.

End Cancellation.

(** * The lock and its holder *)

Lemma fold_max_ge : forall l a, a <= fold_left Z.max l a.
Proof.
  induction l as [|x l IH]; intros a; cbn; [lia|].
  specialize (IH (Z.max a x)). lia.
Qed.

Lemma fold_max_base : forall l a,
  fold_left Z.max l a = a <-> Forall (fun x => x <= a) l.
Proof.
  induction l as [|x l IH]; intros a; cbn.
  - split; [constructor|reflexivity].
  - destruct (Z.le_gt_cases x a) as [Hle|Hgt].
    + rewrite Z.max_l by exact Hle. rewrite IH. split.
      * intros H. now constructor.
      * intros H. now inversion H.
    + split.
      * intros H. pose proof (fold_max_ge l (Z.max a x)). lia.
      * intros H. inversion H; subst. lia.
Qed.

(** The preceding index is 0 exactly when the snapshot does not hold
    the index or holds no smaller positive index. *)
Lemma PrevIndex_zero : forall nodes index,
  PrevIndex nodes index = 0 <-> no_predecessor nodes index.
Proof.
  intros nodes index. unfold PrevIndex, no_predecessor, present.
  destruct (existsb (fun n => node_index n =? index) nodes) eqn:E.
  - apply existsb_exists in E as (n0 & Hn0 & E0). apply Z.eqb_eq in E0.
    rewrite fold_max_base, Forall_forall. split.
    + intros H. right. intros n Hn Hpos.
      destruct (Z.le_gt_cases index (node_index n)) as [Hle|Hgt]; [exact Hle|].
      exfalso. assert (Hx : node_index n <= 0); [|lia].
      apply H. apply filter_In. split; [now apply in_map|].
      apply Z.ltb_lt. lia.
    + intros [Habs|H].
      * exfalso. apply Habs. rewrite <- E0. now apply in_map.
      * intros x Hx. apply filter_In in Hx as [Hx Hlt].
        apply in_map_iff in Hx as (n & <- & Hn). apply Z.ltb_lt in Hlt.
        destruct (Z.le_gt_cases (node_index n) 0) as [Hle|Hgt]; [exact Hle|].
        specialize (H n Hn Hgt). lia.
  - split; [|reflexivity]. intros _. left. intros Hin.
    apply in_map_iff in Hin as (n & Hn & Hin).
    assert (Hex : existsb (fun n => node_index n =? index) nodes = true).
    { apply existsb_exists. exists n. split; [exact Hin|now apply Z.eqb_eq]. }
    congruence.
Qed.

(** C1, amended.  The holder of the lock, for one run of [watch] and
    the snapshot it fetched last: the run ends in success exactly when
    that snapshot gives its index no predecessor, that is when the
    snapshot does not hold the index or holds no smaller positive index;
    and of the positive indices that a snapshot holds at most one is
    given success on it. *)
Theorem lock_held_without_predecessor :
  forall (sigma : Type) (h : Env sigma) fuel keypath index closeChan w,
    let run := watch h fuel keypath index closeChan w in
    (result run = Returned None <->
     exists tr resp,
       trace run = tr ++ [EGet keypath true true (inl resp)]
       /\ no_predecessor (Nodes (RespNode resp)) index)
    /\ forall fuel' index' closeChan' w' tr tr' resp,
         let run' := watch h fuel' keypath index' closeChan' w' in
         trace run = tr ++ [EGet keypath true true (inl resp)] ->
         trace run' = tr' ++ [EGet keypath true true (inl resp)] ->
         result run = Returned None ->
         result run' = Returned None ->
         present (Nodes (RespNode resp)) index ->
         present (Nodes (RespNode resp)) index' ->
         0 < index -> 0 < index' ->
         index = index'.
Proof.
  intros sigma h fuel keypath index closeChan w run.
  pose proof (WatchLoop_success _ _ _ _ _
                (watch_refines h fuel keypath index closeChan w)) as Hrun.
  fold run in Hrun. split.
  - rewrite Hrun. split.
    + intros (tr & resp & Htr & H0). exists tr, resp.
      split; [exact Htr|now apply PrevIndex_zero].
    + intros (tr & resp & Htr & H0). exists tr, resp.
      split; [exact Htr|now apply PrevIndex_zero].
  - intros fuel' index' closeChan' w' tr tr' resp run' Htr Htr' Hres Hres'
      Hp Hp' Hpos Hpos'.
    pose proof (WatchLoop_success _ _ _ _ _
                  (watch_refines h fuel' keypath index' closeChan' w')) as Hrun'.
    fold run' in Hrun'.
    apply Hrun in Hres as (tr0 & resp0 & Htr0 & H0).
    apply Hrun' in Hres' as (tr0' & resp0' & Htr0' & H0').
    rewrite Htr in Htr0. apply app_inj_tail in Htr0 as [_ Heq].
    rewrite Htr' in Htr0'. apply app_inj_tail in Htr0' as [_ Heq'].
    inversion Heq; subst resp0. inversion Heq'; subst resp0'.
    apply PrevIndex_zero in H0 as [H0|H0]; [contradiction|].
    apply PrevIndex_zero in H0' as [H0'|H0']; [contradiction|].
    unfold present in Hp, Hp'.
    apply in_map_iff in Hp as (n & Hn & Hin).
    apply in_map_iff in Hp' as (n' & Hn' & Hin').
    pose proof (H0 n' Hin'). pose proof (H0' n Hin). lia.
Qed.

(** ** The lock, the keep-alive and the cancellation on concrete runs *)

(** C1 as stated fails: the entry 2 of the caller has gone from the
    lock, which holds the entries 1 and 3; the snapshot gives the index
    2 no predecessor and [watch] returns success, though 2 is not the
    minimum of the entries: it is not among them, and entry 1 is. *)
Lemma lock_counterexample :
  ~ lock_statement testEnv 4 "/_etcd/mod/lock/db" 2 closeNotify
      (store [entry 1 "first"; entry 3 "third"] 4 [] [] []).
Proof.
  intros H. destruct (proj1 H eq_refl) as (tr & resp & Htr & Hp & _).
  apply (app_inj_tail [] tr) in Htr as [_ Heq].
  inversion Heq; subst resp. clear Heq.
  vm_compute in Hp. destruct Hp as [Hp|[Hp|[]]]; discriminate Hp.
Qed.

(** C7 as stated fails: with a ttl of 1 the timer lasts [1 / 2 = 0]
    seconds, no time at all and not one second, so the renewals follow
    one another without a wait; and a [select] that finds this timer
    fired and [stopChan] closed may take the timer. *)
Lemma keepalive_counterexample :
  ~ keepalive_statement testEnv [bothReady timerFired; stopOnly]
      "/_etcd/mod/lock/db/1" "clientA" 1
      (store [entry 1 "clientA"] 2 [] [] []).
Proof.
  intros [H _]. cbv zeta in H.
  remember (trace (ttlKeepAlive testEnv [bothReady timerFired; stopOnly]
                     "/_etcd/mod/lock/db/1" "clientA" 1
                     (store [entry 1 "clientA"] 2 [] [] []))) as tr eqn:Etr.
  vm_compute in Etr. subst tr.
  inversion H as [|e l He _]. cbn beta iota in He.
  destruct He as [_ Hd]. unfold Go.Second in Hd. lia.
Qed.

(** The same run, call by call: the timer of no duration has fired when
    [stopChan] is closed, the [select] takes the timer, and a renewal
    follows the closing of [stopChan]. *)
Example renewal_after_stop_closed :
  trace (ttlKeepAlive testEnv [bothReady timerFired; stopOnly]
           "/_etcd/mod/lock/db/1" "clientA" 1
           (store [entry 1 "clientA"] 2 [] [] []))
  = [ETimer 0; ESelect (bothReady timerFired);
     EUpdate "/_etcd/mod/lock/db/1" "clientA" 1
             (inl (mkResponse (mkNode "/_etcd/mod/lock/db/1" "clientA" 2 [])));
     ETimer 0; ESelect stopOnly].
Proof. reflexivity. Qed.

(** Two timers fire, then the stop channel is taken; the later timer is
    never waited for, and a renewal that fails does not end the loop. *)
Example ttlKeepAlive_two_renewals :
  ttlKeepAlive testEnv [timerOnly; timerOnly; stopOnly; timerOnly]
    "/_etcd/mod/lock/db/1" "clientA" 10
    (mkTestStore [entry 1 "clientA"] 2 [] [] [Some "EOF"] [] [] [])
  = mkRun (Returned tt)
      (mkTestStore [mkNode "/_etcd/mod/lock/db/1" "clientA" 2 []] 3 [] [] [] [] [] [])
      [ETimer 5000000000; ESelect timerOnly;
       EUpdate "/_etcd/mod/lock/db/1" "clientA" 10 (inr (errorString "EOF"));
       ETimer 5000000000; ESelect timerOnly;
       EUpdate "/_etcd/mod/lock/db/1" "clientA" 10
               (inl (mkResponse (mkNode "/_etcd/mod/lock/db/1" "clientA" 2 [])));
       ETimer 5000000000; ESelect stopOnly].
Proof. reflexivity. Qed.

(** A ttl beyond 18446744073: the duration wraps in [int64], here to
    0.29 seconds for a ttl of 36893488148. *)
Example timer_wraps : Go.seconds (Z.quot 36893488148 2) = 290448384.
Proof. reflexivity. Qed.

(** The one value of the connection in the store of the examples. *)
Lemma testEnv_one_value : one_value testEnv.
Proof.
  intros s s1 H. unfold testEnv in *. cbn [closeBeforeAnswer closeReady] in *.
  unfold tsCloseBeforeAnswer in H.
  destruct (pop false (closeDuring s)) as [b bs]. inversion H; subst.
  reflexivity.
Qed.

(** C1 on a run: entry 2 waits behind entry 1, entry 1 goes away, and
    the snapshot fetched next gives 2 no predecessor. *)
Lemma lock_held_without_predecessor_witness :
  (exists tr resp,
     trace (watch testEnv 4 "/_etcd/mod/lock/db" 2 closeNotify
              (store [entry 1 "other"; entry 2 "me"] 3 [released] [] []))
     = tr ++ [EGet "/_etcd/mod/lock/db" true true (inl resp)]
     /\ no_predecessor (Nodes (RespNode resp)) 2)
  /\ 2 = 2.
Proof.
  pose proof (lock_held_without_predecessor TestStore testEnv 4
                "/_etcd/mod/lock/db" 2 closeNotify
                (store [entry 1 "other"; entry 2 "me"] 3 [released] [] [])) as H.
  cbv zeta in H. destruct H as [H1 H2]. split.
  - exact (proj1 H1 eq_refl).
  - exact (H2 4%nat 2 closeNotify
              (store [entry 1 "other"; entry 2 "me"] 3 [released] [] [])
              [_; _] [_; _] _ eq_refl eq_refl eq_refl eq_refl
              (or_introl eq_refl) (or_introl eq_refl) eq_refl eq_refl).
Defined.

(** C4 on scenario B: the loop fetches the entries 1 and 2, watches entry
    1, fetches again and succeeds on the snapshot that holds entry 2
    alone; with one iteration allowed it has completed one watch and is
    still running. *)
Lemma watch_runs_the_watch_loop_witness :
  WatchIterations "/_etcd/mod/lock/db" 2 closeNotify 4
    (trace (watch testEnv 4 "/_etcd/mod/lock/db" 2 closeNotify
              (store [entry 1 "other"; entry 2 "me"] 3 [released] [] [])))
    (Returned None)
  /\ (exists tr resp,
        trace (watch testEnv 4 "/_etcd/mod/lock/db" 2 closeNotify
                 (store [entry 1 "other"; entry 2 "me"] 3 [released] [] []))
        = tr ++ [EGet "/_etcd/mod/lock/db" true true (inl resp)]
        /\ PrevIndex (Nodes (RespNode resp)) 2 = 0)
  /\ List.length
       (trace (watch testEnv 1 "/_etcd/mod/lock/db" 2 closeNotify
                 (store [entry 1 "other"; entry 2 "me"] 3 [released] [] [])))
     = 2%nat.
Proof.
  pose proof (watch_runs_the_watch_loop testEnv 4 "/_etcd/mod/lock/db" 2
                closeNotify
                (store [entry 1 "other"; entry 2 "me"] 3 [released] [] [])) as H.
  pose proof (watch_runs_the_watch_loop testEnv 1 "/_etcd/mod/lock/db" 2
                closeNotify
                (store [entry 1 "other"; entry 2 "me"] 3 [released] [] [])) as H'.
  cbv zeta in H, H'. destruct H as [H1 [H2 _]]. destruct H' as [_ [_ H3]].
  split; [exact H1|]. split; [exact (proj1 H2 eq_refl)|].
  exact (proj2 (H3 eq_refl)).
Defined.

(** C7 on a run with a ttl of 10: two renewals, then the stop channel. *)
Lemma keep_alive_renews_until_stopped_witness :
  result (ttlKeepAlive testEnv [timerOnly; timerOnly; stopOnly; timerOnly]
            "/_etcd/mod/lock/db/1" "clientA" 10
            (store [entry 1 "clientA"] 2 [] [] []))
  = Returned tt
  /\ (In stopOnly [timerOnly; timerOnly; stopOnly; timerOnly]
      /\ stop_is_closed stopOnly = true)
  /\ (Go.seconds (Z.quot 10 2) = Z.quot 10 2 * Go.Second
      /\ Go.Second <= Go.seconds (Z.quot 10 2))
  /\ Go.seconds (Z.quot 1 2) = 0.
Proof.
  pose proof (keep_alive_renews_until_stopped testEnv
                [timerOnly; timerOnly; stopOnly; timerOnly]
                "/_etcd/mod/lock/db/1" "clientA" 10
                (store [entry 1 "clientA"] 2 [] [] [])) as H.
  pose proof (keep_alive_renews_until_stopped testEnv []
                "/_etcd/mod/lock/db/1" "clientA" 1
                (store [entry 1 "clientA"] 2 [] [] [])) as H'.
  cbv zeta in H, H'.
  destruct H as (_ & Hres & Hstop & Hsec & _).
  destruct H' as (_ & _ & _ & _ & Hzero).
  split; [exact Hres|]. split; [exact (Hstop stopOnly eq_refl)|].
  split; [apply Hsec; lia|apply Hzero; lia].
Defined.


(** X21 on scenario C: the watch of entry 1 is stopped by the closed
    connection and the call answers "lock watch closed". *)
Lemma stopped_watch_reported_as_closed_witness :
  result (acquire (store [entry 1 "other"] 2 [] [true] [true]) "clientB" "10")
  = Returned (httpError "lock watch closed" StatusInternalServerError)
  /\ exists tr k d,
       trace (acquire (store [entry 1 "other"] 2 [] [true] [true]) "clientB" "10")
       = tr ++ [EWatch "/_etcd/mod/lock/db/1" 2 false closeNotify watchStopped;
                ESelectClose false; EDelete k false d; ECloseStopChan].
Proof.
  apply (stopped_watch_reported_as_closed testEnv lockPrefix 8
           (mkRequest "db" "clientB" "" "10")
           (store [entry 1 "other"] 2 [] [true] [true])
           "/_etcd/mod/lock/db/1" 2).
  - exact testEnv_one_value.
  - vm_compute. do 5 right. left. reflexivity.
Defined.
